(** * The Shadeform Terraform provider: instance resource and readiness polling

    A shallow embedding of [internal/resources/instance] (the resource
    handlers [Create] and [Update] and the loop [pollInstanceStatus]) and of
    the HTTP client in [internal/provider/provider_shadeform], together with
    the pieces of the Go runtime the loop is written against: [error] values,
    [context.Context], [time.Ticker] and the [select] statement. *)

From stdpp Require Import base numbers option list strings gmap pretty.

Set Warnings "-register-all".
Open Scope Z_scope.

(** ** Go values *)

Module Go.

(** [time.Duration] and points in time, both in nanoseconds. *)
Definition Duration := Z.
Definition Time := Z.

Definition Nanosecond : Duration := 1.
Definition Second : Duration := 1000000000 * Nanosecond.
Definition Minute : Duration := 60 * Second.

(** The [error] values that occur in the provider, by dynamic type.
    [errors.New] and a [fmt.Errorf] without [%w] build an [errorString],
    a [fmt.Errorf] with one [%w] builds a [wrapError]; [DeadlineExceeded]
    and [Canceled] are the two sentinels of package [context]; errors made
    inside [net/http], [io] and [encoding/json] are kept as their text. *)
Inductive error : Type :=
| errorString (s : string)
| wrapError (msg : string) (err : error)
| DeadlineExceeded
| Canceled
| libError (msg : string).

(** [err.Error()] *)
Definition Error (e : error) : string :=
  match e with
  | errorString s => s
  | wrapError msg _ => msg
  | DeadlineExceeded => "context deadline exceeded"
  | Canceled => "context canceled"
  | libError msg => msg
  end.

(** The dynamic type behind the [error] interface, as [%T] prints it. *)
Inductive errorType : Type :=
| T_errors_errorString
| T_fmt_wrapError
| T_context_deadlineExceededError
| T_library.

Definition TypeOf (e : error) : errorType :=
  match e with
  | errorString _ => T_errors_errorString
  | wrapError _ _ => T_fmt_wrapError
  | DeadlineExceeded => T_context_deadlineExceededError
  | Canceled => T_errors_errorString
  | libError _ => T_library
  end.

#[export] Instance error_eq_dec : EqDecision error.
Proof. solve_decision. Defined.

#[export] Instance errorType_eq_dec : EqDecision errorType.
Proof. solve_decision. Defined.

(** [fmt.Errorf(prefix + ": %w", err)] *)
Definition Errorf_w (prefix : string) (err : error) : error :=
  wrapError (prefix +:+ ": " +:+ Error err) err.

(** What the [interface{}] values of an API response hold: the values
    [encoding/json] decodes into. A JSON number is a [float64]; only its
    bits are kept, no handler computes with it. *)
Inductive any : Type :=
| AnyNil
| AnyBool (b : bool)
| AnyFloat64 (bits : Z)
| AnyString (s : string)
| AnySlice (elems : list any)
| AnyMap (fields : gmap string any).

(** [v, ok := x.(string)] *)
Definition as_string (x : option any) : string * bool :=
  match x with
  | Some (AnyString s) => (s, true)
  | _ => (""%string, false)
  end.

(** [v, ok := x.(bool)] *)
Definition as_bool (x : option any) : bool * bool :=
  match x with
  | Some (AnyBool b) => (b, true)
  | _ => (false, false)
  end.

End Go.

Export Go.

(** ** The world the provider runs in

    Code runs in no time; time passes only while a [select] waits and while
    an HTTP exchange is in flight. What the remote API answers and which of
    two simultaneously ready [select] cases the runtime takes are not
    decided by the program: both are read from an [Env]. *)

Module Runtime.

(** One invocation of [Client.makeRequest]. The body is recorded as the
    Go map the handler built; a handler stores a [string], a [bool] or a
    [[]string] under a key, nothing else. *)
Inductive bodyValue : Type :=
| VString (s : string)
| VBool (b : bool)
| VStrings (l : list string).

Record Call : Type := mkCall {
  at_time : Time;
  method : string;
  path : string;
  body : option (gmap string bodyValue)
}.

(** What happens to a request once [makeRequest] has it. *)
Inductive Reply : Type :=
| NewRequestFails (e : error)
| DoFails (e : error)
| ReadAllFails (e : error)
| Replied (StatusCode : Z) (respBody : string)
          (unmarshal : error + gmap string any).

Record Exchange : Type := mkExchange {
  elapsed : N;
  reply : Reply
}.

(** The two communication cases of the [select] in [pollInstanceStatus]. *)
Inductive Case : Type := CaseDone | CaseTick.

Record Env : Type := mkEnv {
  remote : nat -> Exchange;   (* for the n-th invocation, n = 0, 1, ... *)
  pick : nat -> Case          (* the n-th select, when both cases are ready *)
}.

Record World : Type := mkWorld {
  now : Time;
  calls : list Call;          (* the invocations so far, newest first *)
  selects : nat;
  debug : list string         (* lines given to tflog.Debug, newest first *)
}.

Definition start (t : Time) : World :=
  {| now := t; calls := []; selects := 0; debug := [] |}.

#[export] Instance Case_eq_dec : EqDecision Case.
Proof. solve_decision. Defined.

End Runtime.

Export Runtime.

(** ** Package context *)

Module context.

(** A context is described by when it ends: its deadline, if it has one,
    and the instant its parent is cancelled, if that ever happens. *)
Record Context : Type := mkContext {
  deadline : option Time;
  cancelAt : option Time
}.

Definition Background : Context :=
  {| deadline := None; cancelAt := None |}.

(** The instant [ctx.Done()] is closed and the value of [ctx.Err()] from
    then on. Whichever of cancellation and deadline comes first decides;
    a cancellation at the deadline's instant is taken to come first, as
    in [WithDeadline] for a parent that is already cancelled. *)
Definition doneAt (ctx : Context) : option (Time * error) :=
  match cancelAt ctx, deadline ctx with
  | None, None => None
  | Some c, None => Some (c, Canceled)
  | None, Some d => Some (d, DeadlineExceeded)
  | Some c, Some d => if c <=? d then Some (c, Canceled)
                      else Some (d, DeadlineExceeded)
  end.

(** [ctx.Err()] at time [t] *)
Definition Err (ctx : Context) (t : Time) : option error :=
  match doneAt ctx with
  | Some (t0, e) => if t0 <=? t then Some e else None
  | None => None
  end.

(** [context.WithTimeout(parent, timeout)] called at time [t]: the
    earlier of the parent's deadline and [t + timeout]. *)
Definition WithTimeout (parent : Context) (t : Time) (timeout : Duration)
  : Context :=
  let d := t + timeout in
  {| deadline := match deadline parent with
                 | Some p => if p <? d then Some p else Some d
                 | None => Some d
                 end;
     cancelAt := cancelAt parent |}.

End context.

(** ** Package time: tickers *)

Module time.

(** A ticker puts a tick on its channel [C] every [period]; the channel
    holds one tick, and ticks that find it full are dropped. [next] is the
    instant of the tick that the next receive gets. *)
Record Ticker : Type := mkTicker {
  period : Duration;
  next : Time
}.

(** [time.NewTicker(d)] at time [t]; it panics for [d <= 0]. *)
Definition NewTicker (t : Time) (d : Duration) : option Ticker :=
  if d <=? 0 then None else Some {| period := d; next := t + d |}.

(** The ticker after its tick was received at time [t >= next]: the ticks
    of the instants up to [t] are gone, the next one is the first after
    [t]. *)
Definition received (tk : Ticker) (t : Time) : Ticker :=
  {| period := period tk;
     next := next tk + ((t - next tk) / period tk + 1) * period tk |}.

End time.

(** ** Package provider_shadeform: the HTTP client *)

Module provider_shadeform.

Definition instanceCreateRoute : string := "/instances/create".
Definition instanceInfoRoute (id : string) : string :=
  "/instances/" +:+ id +:+ "/info".
Definition instanceUpdateRoute (id : string) : string :=
  "/instances/" +:+ id +:+ "/update".
Definition instanceDeleteRoute (id : string) : string :=
  "/instances/" +:+ id +:+ "/delete".

Definition StatusOK : Z := 200.

Record Client : Type := mkClient { apiKey : string }.

(** What [makeRequest] returns for a reply: the part of the function after
    the request was built and sent. A nil map is the empty map. *)
Definition answer (r : Reply) (expectResponse : bool)
  : gmap string any * option error :=
  match r with
  | NewRequestFails e => (∅, Some (Errorf_w "failed to create request" e))
  | DoFails e => (∅, Some (Errorf_w "failed to make request" e))
  | ReadAllFails e => (∅, Some (Errorf_w "failed to read response body" e))
  | Replied code respBody unmarshal =>
      if negb (code =? StatusOK) then
        (∅, Some (errorString ("API request failed with status "
                                +:+ pretty code +:+ ": " +:+ respBody)))
      else if negb expectResponse then (∅, None)
      else match unmarshal with
           | inl e => (∅, Some (Errorf_w "failed to unmarshal response" e))
           | inr result => (result, None)
           end
  end.

(** Whether a request goes out at all: when [http.NewRequest] fails, the
    function returns before [httpClient.Do], and nothing is sent. *)
Definition sends (r : Reply) : bool :=
  match r with
  | NewRequestFails _ => false
  | _ => true
  end.

(** The time an invocation of [makeRequest] takes: the time of the
    exchange, when there is one. *)
Definition took (x : Exchange) : Z :=
  if sends (reply x) then Z.of_N (elapsed x) else 0.

(** [makeRequest]: the invocation is entered in the log [calls], whether a
    request goes out or not ([sends] tells); the exchange the environment
    holds for it takes its time, and its reply is turned into the pair the
    Go function returns. The bodies the handlers pass are maps of strings,
    booleans and string slices, which [json.Marshal] always encodes, so
    the marshalling error cannot occur. *)
Definition makeRequest (env : Env) (c : Client) (method path : string)
    (body : option (gmap string bodyValue)) (expectResponse : bool)
    (w : World) : gmap string any * option error * World :=
  let x := remote env (length (calls w)) in
  (answer (reply x) expectResponse,
   {| now := now w + took x;
      calls := mkCall (now w) method path body :: calls w;
      selects := selects w;
      debug := debug w |}).

Definition makeRequestNoResponse (env : Env) (c : Client)
    (method path : string) (body : option (gmap string bodyValue))
    (w : World) : option error * World :=
  let '(_, err, w') := makeRequest env c method path body false w in
  (err, w').

Definition CreateInstance (env : Env) (c : Client)
    (requestBody : gmap string bodyValue) (w : World) :=
  makeRequest env c "POST" instanceCreateRoute (Some requestBody) true w.

Definition GetInstance (env : Env) (c : Client) (instanceID : string)
    (w : World) :=
  makeRequest env c "GET" (instanceInfoRoute instanceID) None true w.

Definition UpdateInstance (env : Env) (c : Client) (instanceID : string)
    (requestBody : gmap string bodyValue) (w : World) :=
  makeRequestNoResponse env c "POST" (instanceUpdateRoute instanceID)
                        (Some requestBody) w.

Definition DeleteInstance (env : Env) (c : Client) (instanceID : string)
    (w : World) :=
  makeRequestNoResponse env c "POST" (instanceDeleteRoute instanceID) None w.

End provider_shadeform.

(** ** The Terraform plugin framework, as far as the handlers use it *)

Module tfsdk.

(** [types.String], [types.Bool], [types.Int64]: null, unknown or known. *)
Inductive StringT : Type :=
| StringNull
| StringUnknown
| StringValue (s : string).

Inductive BoolT : Type :=
| BoolNull
| BoolUnknown
| BoolValue (b : bool).

Inductive Int64T : Type :=
| Int64Null
| Int64Unknown
| Int64Value (i : Z).

(** [types.List] with element type [types.StringType]. *)
Inductive ListT : Type :=
| ListNull
| ListUnknown
| ListValue (elems : list StringT).

#[export] Instance StringT_eq_dec : EqDecision StringT.
Proof. solve_decision. Defined.

Definition IsNull (v : StringT) : bool :=
  match v with StringNull => true | _ => false end.

Definition IsUnknown (v : StringT) : bool :=
  match v with StringUnknown => true | _ => false end.

(** [ValueString]: the empty string for null and unknown. *)
Definition ValueString (v : StringT) : string :=
  match v with StringValue s => s | _ => "" end.

Definition ValueBool (v : BoolT) : bool :=
  match v with BoolValue b => b | _ => false end.

(** [StringValue.Equal]: same state and, when known, same string. *)
Definition Equal (v o : StringT) : bool :=
  match v, o with
  | StringNull, StringNull => true
  | StringUnknown, StringUnknown => true
  | StringValue a, StringValue b => String.eqb a b
  | _, _ => false
  end.

Definition ListIsNull (l : ListT) : bool :=
  match l with ListNull => true | _ => false end.

Definition ListIsUnknown (l : ListT) : bool :=
  match l with ListUnknown => true | _ => false end.

Definition Elements (l : ListT) : list StringT :=
  match l with ListValue elems => elems | _ => [] end.

(** Diagnostics *)
Inductive Severity : Type := SeverityError | SeverityWarning.

Record Diagnostic : Type := mkDiagnostic {
  severity : Severity;
  summary : string;
  detail : string
}.

#[export] Instance Severity_eq_dec : EqDecision Severity.
Proof. solve_decision. Defined.

#[export] Instance Diagnostic_eq_dec : EqDecision Diagnostic.
Proof. solve_decision. Defined.

Definition Diagnostics := list Diagnostic.

Definition HasError (diags : Diagnostics) : bool :=
  existsb (fun d => bool_decide (severity d = SeverityError)) diags.

(** [diags.Append(in...)]: a diagnostic already present is not added again. *)
Definition Append (diags new : Diagnostics) : Diagnostics :=
  fold_left (fun acc d => if bool_decide (d ∈ acc) then acc else acc ++ [d])
            new diags.

Definition AddError (diags : Diagnostics) (summary detail : string)
  : Diagnostics :=
  Append diags [mkDiagnostic SeverityError summary detail].

(** [list.ElementsAs(ctx, &target, false)] into a [[]string]: an element
    that is null or unknown cannot be stored in a Go string. Of the
    diagnostic the framework builds only the summary is reproduced. *)
Definition ElementsAs (elems : list StringT) : list string * Diagnostics :=
  if forallb (fun e => match e with StringValue _ => true | _ => false end)
             elems
  then (map ValueString elems, [])
  else ([], [mkDiagnostic SeverityError "Value Conversion Error" ""]).

End tfsdk.

(** ** Package timeouts (terraform-plugin-framework-timeouts) *)

Module timeouts.

Import tfsdk.

(** The [timeouts] block of a resource: the [create] attribute, or [None]
    when the object has no such attribute (a null block). *)
Record Value : Type := mkValue { create : option StringT }.

Definition quote : string := String (Ascii.ascii_of_nat 34) EmptyString.

Section Durations.

(** [time.ParseDuration], the text-to-duration function of the Go library. *)
Variable ParseDuration : string -> Duration + error.

(** [t.Create(ctx, defaultTimeout)] *)
Definition Create (t : Value) (defaultTimeout : Duration)
  : Duration * Diagnostics :=
  match create t with
  | None => (defaultTimeout, [])
  | Some value =>
      if IsNull value || IsUnknown value then (defaultTimeout, [])
      else match ParseDuration (ValueString value) with
           | inr err =>
               (defaultTimeout,
                [mkDiagnostic SeverityError "Timeout Cannot Be Parsed"
                   ("timeout for " +:+ quote +:+ "create" +:+ quote
                    +:+ " cannot be parsed, " +:+ Error err)])
           | inl createTimeout => (createTimeout, [])
           end
  end.

End Durations.

End timeouts.

(** ** Package instance: the readiness loop *)

Module instance.

Import context time provider_shadeform.

(** [tflog.Debug(ctx, msg)] *)
Definition tflog_Debug (msg : string) (w : World) : World :=
  {| now := now w; calls := calls w; selects := selects w;
     debug := msg :: debug w |}.

(** The [select] over [ctx.Done()] and [ticker.C], entered at [now w].
    Each case is ready from its own instant on; the statement waits for
    the earlier of the two and takes that case. When both are ready at the
    instant it proceeds, the runtime takes either; [pick] says which. *)
Definition select (env : Env) (ctx : Context) (ticker : Ticker) (w : World)
  : Case * World :=
  let tick := Z.max (now w) (next ticker) in
  let '(case, t) :=
    match doneAt ctx with
    | None => (CaseTick, tick)
    | Some (d, _) =>
        let done := Z.max (now w) d in
        if done <? tick then (CaseDone, done)
        else if tick <? done then (CaseTick, tick)
        else (pick env (selects w), tick)
    end in
  (case, {| now := t; calls := calls w; selects := S (selects w);
            debug := debug w |}).

(** One round of the [for] loop: it returns from the function or goes
    round again. *)
Inductive Round : Type :=
| Return (err : option error) (w : World)
| Continue (ticker : Ticker) (w : World).

Definition iteration (env : Env) (ctx : Context) (c : Client)
    (name id : string) (ticker : Ticker) (w : World) : Round :=
  let '(case, w) := select env ctx ticker w in
  match case with
  | CaseDone => Return (Err ctx (now w)) w
  | CaseTick =>
      let ticker := received ticker (now w) in
      let '(info, err, w) := GetInstance env c id w in
      match err with
      | Some e => Return (Some e) w
      | None =>
          let '(status, _) := as_string (info !! "status") in
          let w := tflog_Debug ("instance [name: " +:+ name +:+ ", id: "
                                +:+ id +:+ "] status=" +:+ status) w in
          if String.eqb status "active" then Return None w
          else if String.eqb status "error" then
            Return (Some (errorString ("instance " +:+ id
                                       +:+ " is in error state"))) w
          else Continue ticker w
      end
  end.

(** The [for] loop. With [fuel] rounds it has returned ([Some]) or is still
    running ([None]); the world is as far as the run got. *)
Fixpoint pollLoop (fuel : nat) (env : Env) (ctx : Context) (c : Client)
    (name id : string) (ticker : Ticker) (w : World)
  : option (option error) * World :=
  match fuel with
  | O => (None, w)
  | S fuel' =>
      match iteration env ctx c name id ticker w with
      | Return err w' => (Some err, w')
      | Continue ticker' w' => pollLoop fuel' env ctx c name id ticker' w'
      end
  end.

(** How a function ends: it returns, or [time.NewTicker] has panicked. *)
Inductive Exit (A : Type) : Type :=
| Returns (a : A)
| Panics.

Arguments Returns {A} a.
Arguments Panics {A}.

Definition pollInstanceStatus (fuel : nat) (env : Env) (ctx : Context)
    (c : Client) (name id : string) (interval : Duration) (w : World)
  : option (Exit (option error)) * World :=
  match NewTicker (now w) interval with
  | None => (Some Panics, w)
  | Some ticker =>
      match pollLoop fuel env ctx c name id ticker w with
      | (Some err, w') => (Some (Returns err), w')
      | (None, w') => (None, w')
      end
  end.

(** ** Package instance: the resource *)

Import tfsdk.

Record InstanceResource : Type := mkInstanceResource { client : Client }.

Record InstanceResourceModel : Type := mkModel {
  Id : StringT;
  Cloud : StringT;
  Region : StringT;
  ShadeInstanceType : StringT;
  ShadeCloud : BoolT;
  Name : StringT;
  Os : StringT;
  SshKeyId : StringT;
  TemplateId : StringT;
  VolumeIds : ListT;
  CloudInstanceType : StringT;
  CloudAssignedID : StringT;
  IP : StringT;
  SshUser : StringT;
  SshPort : Int64T;
  Status : StringT;
  CostEstimate : StringT;
  HourlyPrice : StringT;
  CreatedAt : StringT;
  Timeouts : timeouts.Value
}.

(** A request hands over the plan (and, for an update, the prior state) as
    the framework decoded it, with the diagnostics of the decoding. *)
Record CreateRequest : Type := mkCreateRequest {
  create_Plan : InstanceResourceModel;
  create_PlanGet : Diagnostics
}.

Record UpdateRequest : Type := mkUpdateRequest {
  update_Plan : InstanceResourceModel;
  update_PlanGet : Diagnostics;
  update_State : InstanceResourceModel;
  update_StateGet : Diagnostics
}.

(** [resource.CreateResponse] and [resource.UpdateResponse]. *)
Record Response : Type := mkResponse {
  resp_Diagnostics : Diagnostics;
  resp_State : option InstanceResourceModel
}.

Definition appendDiags (resp : Response) (diags : Diagnostics) : Response :=
  {| resp_Diagnostics := Append (resp_Diagnostics resp) diags;
     resp_State := resp_State resp |}.

Definition addError (resp : Response) (summary detail : string) : Response :=
  {| resp_Diagnostics := AddError (resp_Diagnostics resp) summary detail;
     resp_State := resp_State resp |}.

(** [resp.State.Set(ctx, plan)]; storing a model of the schema's own
    types yields no diagnostics. *)
Definition setState (resp : Response) (m : InstanceResourceModel) : Response :=
  {| resp_Diagnostics := resp_Diagnostics resp; resp_State := Some m |}.

Definition present (v : StringT) : bool :=
  negb (IsNull v) && negb (IsUnknown v).

(** The two ways a handler copies a string field of the API response:
    [if v, ok := info[k].(string); ok { f = StringValue(v) }], with or
    without [else { f = StringNull() }]. *)
Definition stringOrKeep (x : option any) (old : StringT) : StringT :=
  let '(v, ok) := as_string x in if ok then StringValue v else old.

Definition stringOrNull (x : option any) : StringT :=
  let '(v, ok) := as_string x in if ok then StringValue v else StringNull.

Definition boolOrKeep (x : option any) (old : BoolT) : BoolT :=
  let '(v, ok) := as_bool x in if ok then BoolValue v else old.

(** [v, ok := x.(int64)]: no value decoded by [encoding/json] is an
    [int64], numbers arrive as [float64]. *)
Definition as_int64 (x : option any) : Z * bool := (0, false).

Definition int64OrNull (x : option any) : Int64T :=
  let '(v, ok) := as_int64 x in if ok then Int64Value v else Int64Null.

(** The [volume_ids] of an API response: the strings of the array, null
    when the key is missing, nil, no array, or holds no string. *)
Definition volumeIdsOf (raw : option any) : ListT :=
  match raw with
  | Some (AnySlice volumeIdsArray) =>
      let volumeIds :=
        omap (fun v => match v with
                       | AnyString vStr => Some (StringValue vStr)
                       | _ => None
                       end) volumeIdsArray in
      match volumeIds with
      | [] => ListNull
      | _ => ListValue volumeIds
      end
  | _ => ListNull
  end.

(** [Create], "Build request body": the body and the diagnostics of reading
    [volume_ids]. *)
Definition createRequestBody (plan : InstanceResourceModel)
  : gmap string bodyValue * Diagnostics :=
  let requestBody : gmap string bodyValue :=
    <["name" := VString (ValueString (Name plan))]>
    (<["shade_cloud" := VBool (ValueBool (ShadeCloud plan))]>
    (<["shade_instance_type" := VString (ValueString (ShadeInstanceType plan))]>
    (<["region" := VString (ValueString (Region plan))]>
    (<["cloud" := VString (ValueString (Cloud plan))]> ∅)))) in
  let requestBody :=
    if present (Os plan)
    then <["os" := VString (ValueString (Os plan))]> requestBody
    else requestBody in
  let requestBody :=
    if present (TemplateId plan)
    then <["template_id" := VString (ValueString (TemplateId plan))]> requestBody
    else requestBody in
  let requestBody :=
    if present (SshKeyId plan)
    then <["ssh_key_id" := VString (ValueString (SshKeyId plan))]> requestBody
    else requestBody in
  if negb (ListIsNull (VolumeIds plan)) && negb (ListIsUnknown (VolumeIds plan))
  then
    let '(volumeIds, diags) := ElementsAs (Elements (VolumeIds plan)) in
    (<["volume_ids" := VStrings volumeIds]> requestBody, diags)
  else (requestBody, []).

(** [Create], "Set all fields from the API response". *)
Definition createdModel (plan : InstanceResourceModel) (instanceID : string)
    (instanceInfo : gmap string any) : InstanceResourceModel :=
  {| Id := StringValue instanceID;
     Cloud := stringOrKeep (instanceInfo !! "cloud") (Cloud plan);
     Region := stringOrKeep (instanceInfo !! "region") (Region plan);
     ShadeInstanceType :=
       stringOrKeep (instanceInfo !! "shade_instance_type")
                    (ShadeInstanceType plan);
     ShadeCloud := boolOrKeep (instanceInfo !! "shade_cloud") (ShadeCloud plan);
     Name := stringOrKeep (instanceInfo !! "name") (Name plan);
     Os := stringOrNull (instanceInfo !! "os");
     SshKeyId := if present (SshKeyId plan) then SshKeyId plan
                 else stringOrNull (instanceInfo !! "ssh_key_id");
     TemplateId := stringOrNull (instanceInfo !! "template_id");
     VolumeIds := volumeIdsOf (instanceInfo !! "volume_ids");
     CloudInstanceType := stringOrNull (instanceInfo !! "cloud_instance_type");
     CloudAssignedID := stringOrNull (instanceInfo !! "cloud_assigned_id");
     IP := stringOrNull (instanceInfo !! "ip");
     SshUser := stringOrNull (instanceInfo !! "ssh_user");
     SshPort := int64OrNull (instanceInfo !! "ssh_port");
     Status := stringOrNull (instanceInfo !! "status");
     CostEstimate := stringOrNull (instanceInfo !! "cost_estimate");
     HourlyPrice := stringOrNull (instanceInfo !! "hourly_price");
     CreatedAt := stringOrNull (instanceInfo !! "created_at");
     Timeouts := Timeouts plan |}.

(** [Update], "Update the plan with the fetched data". *)
Definition updatedModel (plan state : InstanceResourceModel)
    (instanceInfo : gmap string any) : InstanceResourceModel :=
  {| Id := StringValue (ValueString (Id state));
     Cloud := stringOrKeep (instanceInfo !! "cloud") (Cloud plan);
     Region := stringOrKeep (instanceInfo !! "region") (Region plan);
     ShadeInstanceType :=
       stringOrKeep (instanceInfo !! "shade_instance_type")
                    (ShadeInstanceType plan);
     ShadeCloud := boolOrKeep (instanceInfo !! "shade_cloud") (ShadeCloud plan);
     Name := stringOrKeep (instanceInfo !! "name") (Name plan);
     Os := stringOrNull (instanceInfo !! "os");
     SshKeyId := SshKeyId plan;
     TemplateId := stringOrNull (instanceInfo !! "template_id");
     VolumeIds := volumeIdsOf (instanceInfo !! "volume_ids");
     CloudInstanceType := CloudInstanceType plan;
     CloudAssignedID := CloudAssignedID plan;
     IP := IP plan;
     SshUser := SshUser plan;
     SshPort := SshPort plan;
     Status := Status plan;
     CostEstimate := CostEstimate plan;
     HourlyPrice := HourlyPrice plan;
     CreatedAt := CreatedAt plan;
     Timeouts := Timeouts plan |}.

Definition defaultCreateTimeout : Duration := 60 * Minute.

Section Handlers.

Variable ParseDuration : string -> Duration + error.

(** [InstanceResource.Create], up to the point where the instance exists
    and the timeout is known: the response of an early [return], or the
    instance id and the create timeout to go on with. *)
Definition provision (env : Env) (r : InstanceResource) (req : CreateRequest)
    (resp : Response) (w : World)
  : Response * World + string * Duration * Response * World :=
  let plan := create_Plan req in
  let resp := appendDiags resp (create_PlanGet req) in
  if HasError (resp_Diagnostics resp) then inl (resp, w) else
  let '(requestBody, diags) := createRequestBody plan in
  let resp := appendDiags resp diags in
  if HasError (resp_Diagnostics resp) then inl (resp, w) else
  let '(result, err, w) := CreateInstance env (client r) requestBody w in
  match err with
  | Some e =>
      inl (addError resp "Error creating instance"
             ("Could not create instance, unexpected error: " +:+ Error e), w)
  | None =>
      let '(instanceID, ok) := as_string (result !! "id") in
      if negb ok then
        inl (addError resp "Error creating instance"
               "Could not extract instance ID from response", w)
      else
        let '(createTimeout, diags) :=
          timeouts.Create ParseDuration (Timeouts plan) defaultCreateTimeout in
        let resp := appendDiags resp diags in
        if HasError (resp_Diagnostics resp) then inl (resp, w)
        else inr (instanceID, createTimeout, resp, w)
  end.

(** [InstanceResource.Create] from the result of [pollInstanceStatus] on.
    The two [fmt.Println] of the response go to standard output and are
    left out. *)
Definition finish (env : Env) (r : InstanceResource)
    (plan : InstanceResourceModel) (instanceID : string) (resp : Response)
    (polled : option error) (w : World) : Response * World :=
  match polled with
  | Some err =>
      (addError resp "Instance not ready"
         ("timed out waiting for " +:+ instanceID
          +:+ " to become active: " +:+ Error err), w)
  | None =>
      let '(instanceInfo, err, w) := GetInstance env (client r) instanceID w in
      match err with
      | Some e =>
          (addError resp "Error reading instance after create"
             ("Could not read instance, unexpected error: " +:+ Error e), w)
      | None => (setState resp (createdModel plan instanceID instanceInfo), w)
      end
  end.

(** [InstanceResource.Create] *)
Definition Create (fuel : nat) (env : Env) (r : InstanceResource)
    (ctx : Context) (req : CreateRequest) (resp : Response) (w : World)
  : option (Exit Response) * World :=
  match provision env r req resp w with
  | inl (resp, w) => (Some (Returns resp), w)
  | inr (instanceID, createTimeout, resp, w) =>
      let ctx := WithTimeout ctx (now w) createTimeout in
      match pollInstanceStatus fuel env ctx (client r)
              (ValueString (Name (create_Plan req))) instanceID
              (15 * Second) w with
      | (None, w) => (None, w)
      | (Some Panics, w) => (Some Panics, w)
      | (Some (Returns err), w) =>
          let '(resp, w) :=
            finish env r (create_Plan req) instanceID resp err w in
          (Some (Returns resp), w)
      end
  end.

End Handlers.

(** [InstanceResource.Update] *)
Definition Update (env : Env) (r : InstanceResource) (ctx : Context)
    (req : UpdateRequest) (resp : Response) (w : World) : Response * World :=
  let plan := update_Plan req in
  let state := update_State req in
  let resp := appendDiags resp (update_PlanGet req) in
  let resp := appendDiags resp (update_StateGet req) in
  if HasError (resp_Diagnostics resp) then (resp, w) else
  let requestBody : gmap string bodyValue :=
    if negb (Equal (Name plan) (Name state))
    then <["name" := VString (ValueString (Name plan))]> ∅
    else ∅ in
  let '(err, w) :=
    UpdateInstance env (client r) (ValueString (Id state)) requestBody w in
  match err with
  | Some e =>
      (addError resp "Error updating instance"
         ("Could not update instance, unexpected error: " +:+ Error e), w)
  | None =>
  let '(instanceInfo, err, w) :=
    GetInstance env (client r) (ValueString (Id state)) w in
  match err with
  | Some e =>
      (addError resp "Error reading instance after update"
         ("Could not read instance, unexpected error: " +:+ Error e), w)
  | None => (setState resp (updatedModel plan state instanceInfo), w)
  end
  end.

End instance.

(** ** Vocabulary of the statements *)

Module Spec.

Import context time provider_shadeform instance tfsdk.

(** The status the loop reads off an exchange: the [status] string of the
    snapshot, empty when it has none; [None] when the fetch fails. *)
Definition observed (x : Exchange) : option string :=
  match answer (reply x) true with
  | (info, None) => Some (as_string (info !! "status")).1
  | (_, Some _) => None
  end.

Definition terminal (status : string) : bool :=
  String.eqb status "active" || String.eqb status "error".

(** The exchange shows an instance that is still provisioning. *)
Definition provisioning (x : Exchange) : bool :=
  match observed x with
  | Some status => negb (terminal status)
  | None => false
  end.

(** The time the [k] exchanges from the [from]-th on are in flight. *)
Fixpoint busy (env : Env) (from k : nat) : Z :=
  match k with
  | O => 0
  | S k' => Z.of_N (elapsed (remote env from)) + busy env (S from) k'
  end.

(** The context is still open at [t], and strictly after. *)
Definition openAfter (ctx : Context) (t : Time) : Prop :=
  match doneAt ctx with
  | None => True
  | Some (d, _) => t < d
  end.

(** The body [Update] sends for a plan and a state: the new name when the
    name changes, nothing otherwise. *)
Definition renaming (plan state : InstanceResourceModel)
  : gmap string bodyValue :=
  if decide (Name plan = Name state) then ∅
  else {[ "name" := VString (ValueString (Name plan)) ]}.

(** The calls of [DeleteInstance id] a world has seen. *)
Definition deletions (id : string) (w : World) : list Call :=
  filter (λ c, path c = instanceDeleteRoute id) (calls w).

(** A call of [DeleteInstance]. *)
Definition isDelete (c : Call) : Prop :=
  method c = "POST" ∧ ∃ id, path c = instanceDeleteRoute id.

(** The create timeout a [timeouts] block asks for: the parsed [create]
    text when there is one, sixty minutes otherwise. *)
Definition configured (ParseDuration : string -> Duration + error)
    (t : timeouts.Value) : Duration :=
  match timeouts.create t with
  | Some (StringValue s) =>
      match ParseDuration s with
      | inl d => d
      | inr _ => defaultCreateTimeout
      end
  | _ => defaultCreateTimeout
  end.

(** A call of [GetInstance id] made at [t] or later. *)
Definition fetchOf (id : string) (t : Time) (c : Call) : Prop :=
  method c = "GET" ∧ path c = instanceInfoRoute id ∧ body c = None
  ∧ t <= at_time c.

(** The world after a status fetch at [t] that took [el] and logged [line]. *)
Definition fetched (w : World) (id : string) (t : Time) (el : N)
    (line : string) : World :=
  {| now := t + Z.of_N el;
     calls := mkCall t "GET" (instanceInfoRoute id) None :: calls w;
     selects := S (selects w);
     debug := line :: debug w |}.

Definition debugLine (name id status : string) : string :=
  "instance [name: " +:+ name +:+ ", id: " +:+ id +:+ "] status=" +:+ status.

(** The environment with the [n]-th exchange replaced. *)
Definition withExchange (env : Env) (n : nat) (x : Exchange) : Env :=
  {| remote := fun i => if Nat.eqb i n then x else remote env i;
     pick := pick env |}.

(** The requests that went out among the invocations of a log: those whose
    exchange got past [http.NewRequest]. An invocation with [n] older ones
    in the log had the [n]-th exchange. *)
Fixpoint requests (env : Env) (log : list Call) : list Call :=
  match log with
  | [] => []
  | call :: older =>
      if sends (reply (remote env (length older)))
      then call :: requests env older
      else requests env older
  end.

(** The four ways a poll session ends in an error, as the specification
    names them. *)
Inductive Outcome : Type :=
| FetchError
| ProvisioningFailed
| TimedOut
| Cancelled.

#[export] Instance Outcome_eq_dec : EqDecision Outcome.
Proof. solve_decision. Defined.

(** What closes a context: the cancellation or the deadline, whichever
    comes first. *)
Definition closedBy (ctx : Context) : option Outcome :=
  match cancelAt ctx, deadline ctx with
  | None, None => None
  | Some _, None => Some Cancelled
  | None, Some _ => Some TimedOut
  | Some c, Some d => if c <=? d then Some Cancelled else Some TimedOut
  end.

(** How a round that starts with [ticker] in [w] ends, told by what happens
    in it and not by what it returns: the case [select] takes, what closed
    the context, what the fetch gets. [None] for a round that ends in no
    error. *)
Definition ending (env : Env) (ctx : Context) (ticker : Ticker) (w : World)
  : option Outcome :=
  let '(case, w) := select env ctx ticker w in
  match case with
  | CaseDone => closedBy ctx
  | CaseTick =>
      match observed (remote env (length (calls w))) with
      | None => Some FetchError
      | Some status =>
          if String.eqb status "error" then Some ProvisioningFailed else None
      end
  end.

(** The ticker and the world at the start of the round in which the loop
    returns, if it does within [fuel] rounds. *)
Fixpoint lastRound (fuel : nat) (env : Env) (ctx : Context) (c : Client)
    (name id : string) (ticker : Ticker) (w : World)
  : option (Ticker * World) :=
  match fuel with
  | O => None
  | S fuel' =>
      match iteration env ctx c name id ticker w with
      | Return _ _ => Some (ticker, w)
      | Continue ticker' w' => lastRound fuel' env ctx c name id ticker' w'
      end
  end.

(** The error outcome of a poll session: how its last round ends. *)
Definition sessionEnd (fuel : nat) (env : Env) (ctx : Context) (c : Client)
    (name id : string) (interval : Duration) (w : World) : option Outcome :=
  match NewTicker (now w) interval with
  | None => None
  | Some ticker =>
      match lastRound fuel env ctx c name id ticker w with
      | Some (ticker', w') => ending env ctx ticker' w'
      | None => None
      end
  end.

(** The outcome as a reader of the error's text tells it. *)
Definition told (id text : string) : Outcome :=
  if String.eqb text "context deadline exceeded" then TimedOut
  else if String.eqb text "context canceled" then Cancelled
  else if String.eqb text ("instance " +:+ id +:+ " is in error state")
       then ProvisioningFailed
  else FetchError.

End Spec.

(** ** Concrete runs *)

Module Scenarios.

Import context time provider_shadeform instance tfsdk Spec.

Definition theClient : Client := mkClient "key".

(** The text [{"k":"v"}]. *)
Definition jsonText (k v : string) : string :=
  "{" +:+ timeouts.quote +:+ k +:+ timeouts.quote +:+ ":"
  +:+ timeouts.quote +:+ v +:+ timeouts.quote +:+ "}".

(** A [200] reply with the object [{k: v}], received after [el]. *)
Definition object (el : N) (k v : string) : Exchange :=
  mkExchange el (Replied 200 (jsonText k v) (inr {[ k := AnyString v ]})).

(** An info reply that shows [status], received at once. *)
Definition snapshot (status : string) : Exchange := object 0 "status" status.

(** A remote instance that shows the statuses of [l], one per fetch, and
    [rest] from then on. *)
Definition statuses (l : list string) (rest : string) (n : nat) : Exchange :=
  snapshot (nth n l rest).

Definition always (p : Case) : nat -> Case := fun _ => p.

(** A remote instance that shows [pending], except that the [n]-th request
    gets no answer. *)
Definition unreachableAt (n : nat) (i : nat) : Exchange :=
  if Nat.eqb i n
  then mkExchange 0 (DoFails (libError "connection reset by peer"))
  else snapshot "pending".

(** A remote instance whose first reply takes four time units and shows
    [pending], and which shows [active] from then on. *)
Definition slowThenActive (n : nat) : Exchange :=
  match n with
  | O => object 4 "status" "pending"
  | S _ => snapshot "active"
  end.

(** An info reply without a [status] field. *)
Definition statusless : Exchange := object 0 "name" "gpu".

(** A stand-in for [time.ParseDuration] that knows two texts. *)
Definition parseDuration (s : string) : Duration + error :=
  if String.eqb s "30s" then inl (30 * Second)
  else if String.eqb s "2h" then inl (120 * Minute)
  else inr (libError "time: invalid duration").

(** The plan of the instance of the README, named [name]. *)
Definition gpuPlan (name : string) (t : timeouts.Value)
  : InstanceResourceModel :=
  {| Id := StringUnknown;
     Cloud := StringValue "scaleway";
     Region := StringValue "paris-france-1";
     ShadeInstanceType := StringValue "H100";
     ShadeCloud := BoolValue true;
     Name := StringValue name;
     Os := StringNull;
     SshKeyId := StringUnknown;
     TemplateId := StringNull;
     VolumeIds := ListNull;
     CloudInstanceType := StringUnknown;
     CloudAssignedID := StringUnknown;
     IP := StringUnknown;
     SshUser := StringUnknown;
     SshPort := Int64Unknown;
     Status := StringUnknown;
     CostEstimate := StringUnknown;
     HourlyPrice := StringUnknown;
     CreatedAt := StringUnknown;
     Timeouts := t |}.

(** The state of that instance once created as [i-1]. *)
Definition gpuState (name : string) : InstanceResourceModel :=
  {| Id := StringValue "i-1";
     Cloud := StringValue "scaleway";
     Region := StringValue "paris-france-1";
     ShadeInstanceType := StringValue "H100";
     ShadeCloud := BoolValue true;
     Name := StringValue name;
     Os := StringNull;
     SshKeyId := StringNull;
     TemplateId := StringNull;
     VolumeIds := ListNull;
     CloudInstanceType := StringNull;
     CloudAssignedID := StringNull;
     IP := StringNull;
     SshUser := StringNull;
     SshPort := Int64Null;
     Status := StringValue "active";
     CostEstimate := StringNull;
     HourlyPrice := StringNull;
     CreatedAt := StringNull;
     Timeouts := timeouts.mkValue None |}.

Definition theResource : InstanceResource := mkInstanceResource theClient.

(** A create call answered at once with the id [i-1], then the info
    replies of [info]. *)
Definition behindCreate (info : nat -> Exchange) (n : nat) : Exchange :=
  match n with
  | O => object 0 "id" "i-1"
  | S n' => info n'
  end.

(** An info request refused with status 500. *)
Definition refused : Exchange :=
  mkExchange 0
    (Replied 500 "internal error"
       (inl (libError "invalid character 'i' looking for beginning of value"))).

Definition noResponse : Response := mkResponse [] None.

(** The request of [terraform apply] for that instance. *)
Definition gpuRequest (t : timeouts.Value) : CreateRequest :=
  mkCreateRequest (gpuPlan "gpu" t) [].

Definition noTimeouts : timeouts.Value := timeouts.mkValue None.

Definition halfMinute : timeouts.Value :=
  timeouts.mkValue (Some (StringValue "30s")).

(** [Create] of that instance against a remote that answers the create
    call with the id [i-1] and every status fetch with [info]. *)
Definition terraformApply (fuel : nat) (info : nat -> Exchange) (p : Case)
    (ctx : Context) (t : timeouts.Value) : option (Exit Response) * World :=
  Create parseDuration fuel (mkEnv (behindCreate info) (always p))
         theResource ctx (gpuRequest t) noResponse (start 0).

(** The diagnostics of a run without their detail text. *)
Definition headline (run : option (Exit Response) * World)
  : list (Severity * string) :=
  match run.1 with
  | Some (Returns resp) =>
      map (λ d, (severity d, summary d)) (resp_Diagnostics resp)
  | _ => []
  end.

Definition details (run : option (Exit Response) * World) : list string :=
  match run.1 with
  | Some (Returns resp) => map detail (resp_Diagnostics resp)
  | _ => []
  end.

(** A context with a deadline [d] after the start and no cancellation. *)
Definition within (d : Duration) : Context := WithTimeout Background 0 d.

End Scenarios.

(** ** Package provider_shadeform: the rest of the client *)

Module provider_shadeform_rest.

Import provider_shadeform.

Definition instanceTypesRoute : string := "/instances/types".
Definition volumeInfoRoute (id : string) : string :=
  "/volumes/" +:+ id +:+ "/info".
Definition volumeDeleteRoute (id : string) : string :=
  "/volumes/" +:+ id +:+ "/delete".

(** [NewClient]; [Getenv] is [os.Getenv] of the process. *)
Definition NewClient (Getenv : string -> string) (apiKey : string) : Client :=
  let apiKey := if String.eqb apiKey "" then Getenv "SHADEFORM_API_KEY"
                else apiKey in
  {| provider_shadeform.apiKey := apiKey |}.

(** The [for key, value := range params] loop of [GetInstanceTypes], over
    the entries in the order the [range] visits them. *)
Fixpoint rangeParams (entries : list (string * string)) (query : string)
    (first : bool) : string :=
  match entries with
  | [] => query
  | (key, value) :: entries' =>
      let query := if negb first then query +:+ "&" else query in
      let query := query +:+ (key +:+ "=" +:+ value) in
      rangeParams entries' query false
  end.

(** The query string [GetInstanceTypes] builds; [params] lists the entries
    of the Go map as its [range] yields them. *)
Definition typesQuery (params : list (string * string)) : string :=
  match params with
  | [] => ""
  | _ => rangeParams params "?" true
  end.

Definition GetInstanceTypes (env : Env) (c : Client)
    (params : list (string * string)) (w : World) :=
  makeRequest env c "GET" (instanceTypesRoute +:+ typesQuery params) None
              true w.

Definition GetVolume (env : Env) (c : Client) (volumeID : string)
    (w : World) :=
  makeRequest env c "GET" (volumeInfoRoute volumeID) None true w.

Definition DeleteVolume (env : Env) (c : Client) (volumeID : string)
    (w : World) :=
  makeRequestNoResponse env c "POST" (volumeDeleteRoute volumeID) None w.

End provider_shadeform_rest.

(** ** Package instance: the other handlers of the resource *)

Module instance_rest.

Import context time provider_shadeform instance tfsdk.

(** What the provider hands to [Configure] as [req.ProviderData]: nothing,
    the client, or a value of another type, known by the name [%T] prints. *)
Inductive ProviderData : Type :=
| NoData
| ClientData (c : Client)
| ForeignData (typeName : string).

(** [InstanceResource.Configure]: the resource's client pointer and the
    diagnostics of the response, before and after. *)
Definition Configure (client : option Client) (data : ProviderData)
    (diags : Diagnostics) : option Client * Diagnostics :=
  match data with
  | NoData => (client, diags)
  | ForeignData typeName =>
      (client,
       AddError diags "Unexpected Resource Configure Type"
         ("Expected *provider_shadeform.Client, got: " +:+ typeName
          +:+ ". Please report this issue to the provider developers."))
  | ClientData c => (Some c, diags)
  end.

Record ReadRequest : Type := mkReadRequest {
  read_State : InstanceResourceModel;
  read_StateGet : Diagnostics
}.

Record DeleteRequest : Type := mkDeleteRequest {
  delete_State : InstanceResourceModel;
  delete_StateGet : Diagnostics
}.

(** [Read], "Update state with API response". *)
Definition refreshedModel (state : InstanceResourceModel)
    (result : gmap string any) : InstanceResourceModel :=
  {| Id := Id state;
     Cloud := stringOrKeep (result !! "cloud") (Cloud state);
     Region := stringOrKeep (result !! "region") (Region state);
     ShadeInstanceType :=
       stringOrKeep (result !! "shade_instance_type")
                    (ShadeInstanceType state);
     ShadeCloud := boolOrKeep (result !! "shade_cloud") (ShadeCloud state);
     Name := stringOrKeep (result !! "name") (Name state);
     Os := stringOrNull (result !! "os");
     SshKeyId := stringOrNull (result !! "ssh_key_id");
     TemplateId := stringOrNull (result !! "template_id");
     VolumeIds := volumeIdsOf (result !! "volume_ids");
     CloudInstanceType := stringOrNull (result !! "cloud_instance_type");
     CloudAssignedID := stringOrNull (result !! "cloud_assigned_id");
     IP := stringOrNull (result !! "ip");
     SshUser := stringOrNull (result !! "ssh_user");
     SshPort := int64OrNull (result !! "ssh_port");
     Status := stringOrNull (result !! "status");
     CostEstimate := stringOrNull (result !! "cost_estimate");
     HourlyPrice := stringOrNull (result !! "hourly_price");
     CreatedAt := stringOrNull (result !! "created_at");
     Timeouts := Timeouts state |}.

(** [InstanceResource.Read] *)
Definition Read (env : Env) (r : InstanceResource) (ctx : Context)
    (req : ReadRequest) (resp : Response) (w : World) : Response * World :=
  let state := read_State req in
  let resp := appendDiags resp (read_StateGet req) in
  if HasError (resp_Diagnostics resp) then (resp, w) else
  let '(result, err, w) :=
    GetInstance env (client r) (ValueString (Id state)) w in
  match err with
  | Some e =>
      (addError resp "Error reading instance"
         ("Could not read instance, unexpected error: " +:+ Error e), w)
  | None => (setState resp (refreshedModel state result), w)
  end.

(** [InstanceResource.Delete] *)
Definition Delete (env : Env) (r : InstanceResource) (ctx : Context)
    (req : DeleteRequest) (resp : Response) (w : World) : Response * World :=
  let state := delete_State req in
  let resp := appendDiags resp (delete_StateGet req) in
  if HasError (resp_Diagnostics resp) then (resp, w) else
  let '(err, w) := DeleteInstance env (client r) (ValueString (Id state)) w in
  match err with
  | Some e =>
      (addError resp "Error deleting instance"
         ("Could not delete instance, unexpected error: " +:+ Error e), w)
  | None => (resp, w)
  end.

End instance_rest.

(** ** Package provider *)

Module provider.

Import provider_shadeform provider_shadeform_rest tfsdk instance_rest.

Record ShadeformProviderModel : Type := mkProviderModel { ApiKey : StringT }.

(** The provider configuration as the framework decoded it. *)
Record ConfigRequest : Type := mkConfigRequest {
  Config : ShadeformProviderModel;
  ConfigGet : Diagnostics
}.

Record ConfigureResponse : Type := mkConfigureResponse {
  cfg_Diagnostics : Diagnostics;
  DataSourceData : ProviderData;
  ResourceData : ProviderData
}.

(** [ShadeformProvider.Configure] *)
Definition Configure (Getenv : string -> string) (req : ConfigRequest)
    (resp : ConfigureResponse) : ConfigureResponse :=
  let data := Config req in
  let diags := Append (cfg_Diagnostics resp) (ConfigGet req) in
  if HasError diags then
    {| cfg_Diagnostics := diags; DataSourceData := DataSourceData resp;
       ResourceData := ResourceData resp |}
  else
    let client := NewClient Getenv (ValueString (ApiKey data)) in
    {| cfg_Diagnostics := diags; DataSourceData := ClientData client;
       ResourceData := ClientData client |}.

(** [ShadeformProvider.ValidateConfig]; the diagnostics of the response.
    The attribute path [api_key] of the error is not kept. *)
Definition ValidateConfig (req : ConfigRequest) (diags : Diagnostics)
  : Diagnostics :=
  let data := Config req in
  let diags := Append diags (ConfigGet req) in
  if HasError diags then diags
  else if IsNull (ApiKey data) || IsUnknown (ApiKey data) then
    AddError diags "Missing API Key"
      ("The provider cannot create the Shadeform API client as there is a "
       +:+ "missing or empty value for the Shadeform API key. "
       +:+ "Set the api_key value in the configuration or use the "
       +:+ "SHADEFORM_API_KEY environment variable. "
       +:+ "If either is already set, ensure the value is not empty.")
  else diags.

End provider.

(** ** Package volume: update and delete *)

Module volume.

Import context provider_shadeform provider_shadeform_rest instance tfsdk.

Record VolumeResource : Type := mkVolumeResource { client : Client }.

Record VolumeResourceModel : Type := mkVolumeModel {
  Id : StringT;
  Cloud : StringT;
  Region : StringT;
  Name : StringT;
  SizeInGb : Int64T;
  FixedSize : BoolT;
  SupportsMultiMount : BoolT;
  CostEstimate : StringT;
  MountedBy : StringT
}.

Record UpdateRequest : Type := mkUpdateRequest {
  update_Plan : VolumeResourceModel;
  update_PlanGet : Diagnostics
}.

Record DeleteRequest : Type := mkDeleteRequest {
  delete_State : VolumeResourceModel;
  delete_StateGet : Diagnostics
}.

Record Response : Type := mkResponse {
  resp_Diagnostics : Diagnostics;
  resp_State : option VolumeResourceModel
}.

(** [VolumeResource.Update]: the API has no update for volumes. *)
Definition Update (env : Env) (r : VolumeResource) (ctx : Context)
    (req : UpdateRequest) (resp : Response) (w : World) : Response * World :=
  let plan := update_Plan req in
  let diags := Append (resp_Diagnostics resp) (update_PlanGet req) in
  if HasError diags then
    ({| resp_Diagnostics := diags; resp_State := resp_State resp |}, w)
  else ({| resp_Diagnostics := diags; resp_State := Some plan |}, w).

(** The instance a volume info says the volume is mounted by:
    [if mountedBy, ok := volumeInfo[mounted_by]; ok && mountedBy != nil]
    and then [mountedBy.(string)] with a non-empty string. *)
Definition mountedBy (volumeInfo : gmap string any) : option string :=
  match volumeInfo !! "mounted_by" with
  | Some (AnyString mountedByStr) =>
      if negb (String.eqb mountedByStr "") then Some mountedByStr else None
  | _ => None
  end.

(** [VolumeResource.Delete] *)
Definition Delete (env : Env) (r : VolumeResource) (ctx : Context)
    (req : DeleteRequest) (resp : Response) (w : World) : Response * World :=
  let state := delete_State req in
  let diags := Append (resp_Diagnostics resp) (delete_StateGet req) in
  let respond diags :=
    {| resp_Diagnostics := diags; resp_State := resp_State resp |} in
  if HasError diags then (respond diags, w) else
  let '(volumeInfo, err, w) :=
    GetVolume env (client r) (ValueString (Id state)) w in
  match err with
  | Some e =>
      (respond (AddError diags "Error reading volume before delete"
                 ("Could not read volume, unexpected error: " +:+ Error e)),
       w)
  | None =>
      match mountedBy volumeInfo with
      | Some mountedByStr =>
          (respond (AddError diags "Error deleting volume"
                     ("Cannot delete volume " +:+ ValueString (Id state)
                      +:+ " because it is mounted by instance "
                      +:+ mountedByStr
                      +:+ ". Please delete the instance first.")), w)
      | None =>
          let '(err, w) :=
            DeleteVolume env (client r) (ValueString (Id state)) w in
          match err with
          | Some e =>
              (respond (AddError diags "Error deleting volume"
                         ("Could not delete volume, unexpected error: "
                          +:+ Error e)), w)
          | None => (respond diags, w)
          end
      end
  end.

End volume.

(** ** Facts about [select] and one round of the loop *)

Module Rounds.

Import context time provider_shadeform instance tfsdk Spec.

Lemma busy_nonneg env from k : 0 <= busy env from k.
Proof.
  revert from; induction k as [|k IH]; intros from; cbn [busy]; [lia|].
  specialize (IH (S from)). lia.
Qed.

Lemma select_calls env ctx tk w : calls (select env ctx tk w).2 = calls w.
Proof.
  unfold select. destruct (doneAt ctx) as [[d e]|]; [|done].
  by repeat case_match.
Qed.

(** Only the ticker is ready when [select] proceeds. *)
Lemma select_tick env ctx tk w :
  openAfter ctx (Z.max (now w) (next tk)) ->
  select env ctx tk w
  = (CaseTick, {| now := Z.max (now w) (next tk); calls := calls w;
                  selects := S (selects w); debug := debug w |}).
Proof.
  unfold openAfter, select. destruct (doneAt ctx) as [[d e]|]; [|done].
  intros Hd.
  destruct (Z.ltb_spec (Z.max (now w) d) (Z.max (now w) (next tk))); [lia|].
  destruct (Z.ltb_spec (Z.max (now w) (next tk)) (Z.max (now w) d)); [done|lia].
Qed.

(** Only the context is done when [select] proceeds. *)
Lemma select_done env ctx tk w d e :
  doneAt ctx = Some (d, e) ->
  Z.max (now w) d < Z.max (now w) (next tk) ->
  select env ctx tk w
  = (CaseDone, {| now := Z.max (now w) d; calls := calls w;
                  selects := S (selects w); debug := debug w |}).
Proof.
  unfold select. intros -> Hlt.
  destruct (Z.ltb_spec (Z.max (now w) d) (Z.max (now w) (next tk))); [done|lia].
Qed.

(** Both become ready at the same instant: the runtime's pick decides. *)
Lemma select_tie env ctx tk w d e :
  doneAt ctx = Some (d, e) ->
  Z.max (now w) d = Z.max (now w) (next tk) ->
  select env ctx tk w
  = (pick env (selects w),
     {| now := Z.max (now w) (next tk); calls := calls w;
        selects := S (selects w); debug := debug w |}).
Proof.
  unfold select. intros -> Heq. rewrite Heq.
  by rewrite Z.ltb_irrefl.
Qed.

Lemma Err_done ctx d e t : doneAt ctx = Some (d, e) -> d <= t -> Err ctx t = Some e.
Proof.
  unfold Err. intros -> Hle. by destruct (Z.leb_spec d t); [|lia].
Qed.

Lemma took_nonneg x : 0 <= took x.
Proof. unfold took. destruct (sends (reply x)); lia. Qed.

(** An invocation that returns no error has sent its request. *)
Lemma took_answer x expect m :
  answer (reply x) expect = (m, None) -> took x = Z.of_N (elapsed x).
Proof. unfold took, answer. by destruct (reply x). Qed.

Lemma took_observed x status :
  observed x = Some status -> took x = Z.of_N (elapsed x).
Proof.
  unfold observed. destruct (answer (reply x) true) as [m [e|]] eqn:Hans;
    [done|]. intros _. by eapply took_answer.
Qed.

(** A round whose [select] takes the tick, by what the fetch shows. *)
Lemma iteration_tick env ctx c name id tk w w1 :
  select env ctx tk w = (CaseTick, w1) ->
  iteration env ctx c name id tk w
  = let x := remote env (length (calls w1)) in
    let w2 := {| now := now w1 + took x;
                 calls := mkCall (now w1) "GET" (instanceInfoRoute id) None
                          :: calls w1;
                 selects := selects w1; debug := debug w1 |} in
    match answer (reply x) true with
    | (_, Some e) => Return (Some e) w2
    | (info, None) =>
        let status := (as_string (info !! "status")).1 in
        let w3 := tflog_Debug (debugLine name id status) w2 in
        if String.eqb status "active" then Return None w3
        else if String.eqb status "error" then
          Return (Some (errorString ("instance " +:+ id
                                     +:+ " is in error state"))) w3
        else Continue (received tk (now w1)) w3
    end.
Proof.
  intros Hsel. unfold iteration. rewrite Hsel.
  unfold GetInstance, makeRequest. cbv zeta.
  destruct (answer _ true) as [info [e|]]; [done|].
  unfold debugLine. by destruct (as_string (info !! "status")) as [status ok].
Qed.

Lemma iteration_continues env ctx c name id tk w tk' w' :
  iteration env ctx c name id tk w = Continue tk' w' ->
  length (calls w') = S (length (calls w)).
Proof.
  pose proof (select_calls env ctx tk w) as Hsc.
  destruct (select env ctx tk w) as [cs w1] eqn:Hsel. cbn [snd] in Hsc.
  destruct cs; [unfold iteration; by rewrite Hsel|].
  rewrite (iteration_tick _ _ _ _ _ _ _ _ Hsel). cbv zeta.
  destruct (answer _ true) as [info [e|]]; [done|].
  repeat case_match; try done. intros [= _ <-].
  cbn [tflog_Debug calls length]. by rewrite Hsc.
Qed.

(** A round asks the environment for one exchange, that of the next
    invocation, and for the pick of its [select]. *)
Lemma iteration_ext env env' ctx c name id tk w :
  pick env = pick env' ->
  remote env (length (calls w)) = remote env' (length (calls w)) ->
  iteration env ctx c name id tk w = iteration env' ctx c name id tk w.
Proof.
  intros Hp Hr.
  assert (Hsel : select env ctx tk w = select env' ctx tk w).
  { unfold select. by rewrite Hp. }
  unfold iteration. rewrite <- Hsel.
  pose proof (select_calls env ctx tk w) as Hsc.
  destruct (select env ctx tk w) as [cs w1]. cbn [snd] in Hsc.
  destruct cs; [done|]. unfold GetInstance, makeRequest.
  by rewrite Hsc, Hr.
Qed.

(** A run of the loop reads none of the exchanges of earlier invocations. *)
Lemma pollLoop_ext fuel : ∀ env env' ctx c name id tk w,
  pick env = pick env' ->
  (∀ n, (length (calls w) <= n)%nat -> remote env n = remote env' n) ->
  pollLoop fuel env ctx c name id tk w = pollLoop fuel env' ctx c name id tk w.
Proof.
  induction fuel as [|fuel IH]; intros env env' ctx c name id tk w Hp Hr;
    [done|].
  cbn [pollLoop]. rewrite <- (iteration_ext env env') by auto.
  destruct (iteration env ctx c name id tk w) as [r w'|tk' w'] eqn:Hit;
    [done|].
  apply IH; [done|]. intros n Hn. apply Hr.
  apply iteration_continues in Hit. lia.
Qed.

Lemma terminal_false status :
  terminal status = false ->
  String.eqb status "active" = false ∧ String.eqb status "error" = false.
Proof. unfold terminal. intros H%orb_false_elim. done. Qed.

(** A round with the context open, by the status the fetch shows. *)
Lemma iteration_observed env ctx c name id tk w status :
  openAfter ctx (Z.max (now w) (next tk)) ->
  observed (remote env (length (calls w))) = Some status ->
  iteration env ctx c name id tk w
  = let w' := fetched w id (Z.max (now w) (next tk))
                      (elapsed (remote env (length (calls w))))
                      (debugLine name id status) in
    if String.eqb status "active" then Return None w'
    else if String.eqb status "error" then
      Return (Some (errorString ("instance " +:+ id +:+ " is in error state")))
             w'
    else Continue (received tk (Z.max (now w) (next tk))) w'.
Proof.
  intros Hopen Hobs.
  rewrite (iteration_tick _ _ _ _ _ _ _ _ (select_tick env ctx tk w Hopen)).
  cbn [calls now selects debug]. rewrite (took_observed _ _ Hobs).
  unfold observed in Hobs.
  destruct (answer _ true) as [info [e|]]; [done|].
  injection Hobs as <-. done.
Qed.

(** A round that finds the instance still provisioning, the context open. *)
Lemma iteration_provisioning env ctx c name id tk w status :
  openAfter ctx (Z.max (now w) (next tk)) ->
  observed (remote env (length (calls w))) = Some status ->
  terminal status = false ->
  iteration env ctx c name id tk w
  = Continue (received tk (Z.max (now w) (next tk)))
             (fetched w id (Z.max (now w) (next tk))
                      (elapsed (remote env (length (calls w))))
                      (debugLine name id status)).
Proof.
  intros Hopen Hobs [Ha He]%terminal_false.
  rewrite (iteration_observed _ _ _ _ _ _ _ _ Hopen Hobs).
  cbv zeta. by rewrite Ha, He.
Qed.

Lemma openAfter_le ctx t t' : openAfter ctx t -> t' <= t -> openAfter ctx t'.
Proof.
  unfold openAfter. destruct (doneAt ctx) as [[d e]|]; [lia|done].
Qed.

(** After a receive at [t] the next tick is due within one period. *)
Lemma received_next tk t :
  0 < period tk -> t < next (received tk t) <= t + period tk.
Proof.
  intros Hp. unfold received; cbn [next].
  pose proof (Z.mul_div_le (t - next tk) (period tk) Hp).
  pose proof (Z.mul_succ_div_gt (t - next tk) (period tk) Hp).
  nia.
Qed.

Lemma received_prompt tk :
  0 < period tk -> next (received tk (next tk)) = next tk + period tk.
Proof.
  intros Hp. unfold received; cbn [next].
  rewrite Z.sub_diag, Z.div_0_l by lia. lia.
Qed.

Lemma provisioning_observed x :
  provisioning x = true ->
  ∃ status, observed x = Some status ∧ terminal status = false.
Proof.
  unfold provisioning. destruct (observed x) as [status|]; [|done].
  intros H%negb_true_iff. eauto.
Qed.

(** [k] rounds that find the instance still provisioning, while the context
    stays open: the loop is where it was [k] fetches later. [A] bounds the
    instant the loop is entered, [A + period] the first tick. *)
Lemma rounds_provisioning k : ∀ fuel env ctx c name id tk w A,
  0 < period tk -> now w <= A -> next tk <= A + period tk ->
  (∀ i, (i < k)%nat ->
        provisioning (remote env (length (calls w) + i)) = true) ->
  openAfter ctx (A + Z.of_nat k * period tk + busy env (length (calls w)) k) ->
  ∃ tk' w' new,
    pollLoop (k + fuel) env ctx c name id tk w
    = pollLoop fuel env ctx c name id tk' w'
    ∧ period tk' = period tk
    ∧ calls w' = new ++ calls w ∧ length new = k
    ∧ Forall (fetchOf id (Z.max (now w) (next tk))) new
    ∧ (k = 0%nat
       ∨ last new = Some (mkCall (Z.max (now w) (next tk)) "GET"
                                 (instanceInfoRoute id) None))
    ∧ Z.max (now w) (next tk) <= Z.max (now w') (next tk')
    ∧ now w' <= A + Z.of_nat k * period tk + busy env (length (calls w)) k
    ∧ next tk' <= A + Z.of_nat k * period tk
                  + busy env (length (calls w)) k + period tk.
Proof.
  induction k as [|k IH]; intros fuel env ctx c name id tk w A Hp Hnow Hnext Hprov Hopen.
  - exists tk, w, []. cbn [busy]. repeat split; auto; try lia.
  - set (T := Z.max (now w) (next tk)).
    set (el := elapsed (remote env (length (calls w)))).
    pose proof (busy_nonneg env (S (length (calls w))) k) as Hb.
    cbn [busy] in Hopen. fold el in Hopen.
    destruct (provisioning_observed _ (Hprov 0%nat ltac:(lia)))
      as (status & Hobs & Hterm).
    rewrite Nat.add_0_r in Hobs.
    assert (HopenT : openAfter ctx T).
    { eapply openAfter_le; [exact Hopen|]. unfold T. nia. }
    pose proof (iteration_provisioning env ctx c name id tk w status
                  HopenT Hobs Hterm) as Hit.
    fold T el in Hit.
    pose proof (received_next tk T Hp) as [Hr1 Hr2].
    set (tk1 := received tk T) in *.
    set (w1 := fetched w id T el (debugLine name id status)) in *.
    destruct (IH fuel env ctx c name id tk1 w1 (A + period tk + Z.of_N el))
      as (tk' & w' & new & Hloop & Hper & Hcalls & Hlen & Hall & Hlast
          & Hmono & Hnow' & Hnext').
    + done.
    + unfold w1, fetched; cbn [now]. unfold T. lia.
    + change (period tk1) with (period tk). unfold T in Hr2. lia.
    + intros i Hi. unfold w1, fetched; cbn [calls length].
      replace (S (length (calls w)) + i)%nat
        with (length (calls w) + S i)%nat by lia.
      apply Hprov. lia.
    + change (period tk1) with (period tk).
      unfold w1, fetched; cbn [calls length].
      eapply openAfter_le; [exact Hopen|]. lia.
    + change (period tk1) with (period tk) in *.
      unfold w1, fetched in Hcalls, Hnow', Hnext'.
      cbn [calls length] in Hcalls, Hnow', Hnext'.
      exists tk', w', (new ++ [mkCall T "GET" (instanceInfoRoute id) None]).
      split; [|split; [|split; [|split; [|split; [|split; [|split; [|split]]]]]]].
      * change (S k + fuel)%nat with (S (k + fuel)). cbn [pollLoop].
        rewrite Hit. exact Hloop.
      * done.
      * rewrite Hcalls, <- app_assoc. done.
      * rewrite length_app, Hlen. cbn. lia.
      * apply Forall_app. split.
        -- eapply Forall_impl; [exact Hall|].
           intros x (? & ? & ? & Hx). repeat split; auto.
           assert (T <= now w1) by (unfold w1, fetched; cbn [now]; lia).
           lia.
        -- apply Forall_singleton. repeat split; auto. cbn. lia.
      * right. by rewrite last_snoc.
      * assert (T <= now w1) by (unfold w1, fetched; cbn [now]; lia). lia.
      * cbn [busy]. fold el. lia.
      * cbn [busy]. fold el. lia.
Qed.

End Rounds.


(** ** The readiness loop reaches a terminal status *)

Module Readiness.

Import context time provider_shadeform instance tfsdk Spec Rounds Scenarios.

(** [k] fetches that show a provisioning instance, then one that shows a
    terminal status, the context open throughout: the loop returns at that
    fetch, [nil] for [active] and the failure for [error]. *)
Lemma poll_reaches_terminal k fuel env ctx c name id interval w status :
  0 < interval ->
  (∀ i, (i < k)%nat ->
        provisioning (remote env (length (calls w) + i)) = true) ->
  observed (remote env (length (calls w) + k)) = Some status ->
  terminal status = true ->
  openAfter ctx (now w + Z.of_nat (S k) * interval
                 + busy env (length (calls w)) k) ->
  (k < fuel)%nat ->
  ∃ w' new,
    pollInstanceStatus fuel env ctx c name id interval w
    = (Some (Returns
               (if String.eqb status "active" then None
                else Some (errorString ("instance " +:+ id
                                        +:+ " is in error state")))), w')
    ∧ calls w' = new ++ calls w ∧ length new = S k
    ∧ Forall (fetchOf id (now w + interval)) new
    ∧ last new = Some (mkCall (now w + interval) "GET"
                              (instanceInfoRoute id) None).
Proof.
  intros Hi Hprov Hobs Hterm Hopen Hfuel.
  unfold pollInstanceStatus, NewTicker.
  destruct (Z.leb_spec interval 0); [lia|]. cbv beta iota.
  set (tk := {| period := interval; next := now w + interval |}).
  pose proof (busy_nonneg env (length (calls w)) k) as Hb.
  destruct (rounds_provisioning k (S (fuel - k - 1)) env ctx c name id tk w
              (now w))
    as (tk' & w' & new & Hloop & Hper & Hcalls & Hlen & Hall & Hlast
        & Hmono & Hnow' & Hnext'); subst tk; cbn [period next] in *;
    try lia; try done.
  { eapply openAfter_le; [exact Hopen|]. lia. }
  replace (Z.max (now w) (now w + interval)) with (now w + interval) in * by lia.
  assert (Hf : fuel = (k + S (fuel - k - 1))%nat) by lia.
  rewrite Hf, Hloop. clear Hf. cbn [pollLoop].
  assert (Hlen' : length (calls w') = (length (calls w) + k)%nat).
  { rewrite Hcalls, length_app. lia. }
  rewrite <- Hlen' in Hobs.
  assert (HopenT : openAfter ctx (Z.max (now w') (next tk'))).
  { eapply openAfter_le; [exact Hopen|]. lia. }
  rewrite (iteration_observed _ _ _ _ _ _ _ _ HopenT Hobs). cbv zeta.
  set (T := Z.max (now w') (next tk')) in *.
  set (call := mkCall T "GET" (instanceInfoRoute id) None).
  assert (Hnew : Forall (fetchOf id (now w + interval)) (call :: new)).
  { constructor; [|done]. repeat split; auto. }
  assert (Hfirst : last (call :: new)
                   = Some (mkCall (now w + interval) "GET"
                                  (instanceInfoRoute id) None)).
  { destruct Hlast as [->|Hlast].
    - destruct new; [|done]. cbn. unfold call. do 2 f_equal.
      subst T. cbn [busy] in Hnow', Hnext'. lia.
    - destruct new as [|x new]; [done|]. exact Hlast. }
  unfold terminal in Hterm. apply orb_true_iff in Hterm.
  destruct (String.eqb status "active") eqn:Ha.
  - eexists _, (call :: new). split; [reflexivity|].
    unfold fetched; cbn [calls]. rewrite Hcalls.
    repeat split; auto. cbn [length]. lia.
  - destruct Hterm as [|He]; [done|]. rewrite He.
    eexists _, (call :: new). split; [reflexivity|].
    unfold fetched; cbn [calls]. rewrite Hcalls.
    repeat split; auto. cbn [length]. lia.
Qed.

(** C5. For every sequence of [k] non-terminal statuses followed by
    [active], with the context open until the last tick, the poll loop
    returns [nil] (Ready) and has made exactly [k + 1] status fetches, none
    before one interval has passed, the first exactly one interval after
    the start; having returned, it fetches no more. *)
Theorem ready_after_k_provisioning k fuel env ctx c name id interval w :
  0 < interval ->
  (∀ i, (i < k)%nat ->
        provisioning (remote env (length (calls w) + i)) = true) ->
  observed (remote env (length (calls w) + k)) = Some "active" ->
  openAfter ctx (now w + Z.of_nat (S k) * interval
                 + busy env (length (calls w)) k) ->
  (k < fuel)%nat ->
  ∃ w' new,
    pollInstanceStatus fuel env ctx c name id interval w
    = (Some (Returns None), w')
    ∧ calls w' = new ++ calls w ∧ length new = S k
    ∧ Forall (fetchOf id (now w + interval)) new
    ∧ last new = Some (mkCall (now w + interval) "GET"
                              (instanceInfoRoute id) None).
Proof.
  intros Hi Hprov Hobs Hopen Hfuel.
  exact (poll_reaches_terminal k fuel env ctx c name id interval w "active"
           Hi Hprov Hobs eq_refl Hopen Hfuel).
Qed.

(** C6. For every sequence of [k] non-terminal statuses followed by
    [error], with the context open until that tick, the poll loop returns
    at that tick, after [k + 1] fetches, the failure whose text names the
    resource id. *)
Theorem failed_carries_id k fuel env ctx c name id interval w :
  0 < interval ->
  (∀ i, (i < k)%nat ->
        provisioning (remote env (length (calls w) + i)) = true) ->
  observed (remote env (length (calls w) + k)) = Some "error" ->
  openAfter ctx (now w + Z.of_nat (S k) * interval
                 + busy env (length (calls w)) k) ->
  (k < fuel)%nat ->
  ∃ w' new err,
    pollInstanceStatus fuel env ctx c name id interval w
    = (Some (Returns (Some err)), w')
    ∧ Error err = "instance " +:+ id +:+ " is in error state"
    ∧ calls w' = new ++ calls w ∧ length new = S k.
Proof.
  intros Hi Hprov Hobs Hopen Hfuel.
  destruct (poll_reaches_terminal k fuel env ctx c name id interval w "error"
              Hi Hprov Hobs eq_refl Hopen Hfuel)
    as (w' & new & Hrun & Hcalls & Hlen & _).
  exists w', new, (errorString ("instance " +:+ id +:+ " is in error state")).
  done.
Qed.

(** C5 on the run of the specification: interval 1, deadline 5, statuses
    pending, pending, active. *)
Lemma ready_after_k_provisioning_witness :
  ∃ w' new,
    pollInstanceStatus 3 (mkEnv (statuses ["pending"; "pending"] "active")
                                (always CaseTick))
                       (within 5) theClient "gpu" "i-1" 1 (start 0)
    = (Some (Returns None), w')
    ∧ calls w' = new ++ [] ∧ length new = 3%nat
    ∧ Forall (fetchOf "i-1" 1) new
    ∧ last new = Some (mkCall 1 "GET" (instanceInfoRoute "i-1") None).
Proof.
  apply (ready_after_k_provisioning 2 3
           (mkEnv (statuses ["pending"; "pending"] "active") (always CaseTick))
           (within 5) theClient "gpu" "i-1" 1 (start 0)).
  - lia.
  - intros [|[|i]] Hi; [reflexivity|reflexivity|lia].
  - reflexivity.
  - vm_compute. reflexivity.
  - lia.
Defined.

(** C6 on the run of the specification: statuses pending, error. *)
Lemma failed_carries_id_witness :
  ∃ w' new err,
    pollInstanceStatus 2 (mkEnv (statuses ["pending"] "error")
                                (always CaseTick))
                       (within 5) theClient "gpu" "i-1" 1 (start 0)
    = (Some (Returns (Some err)), w')
    ∧ Error err = "instance i-1 is in error state"
    ∧ calls w' = new ++ [] ∧ length new = 2%nat.
Proof.
  apply (failed_carries_id 1 2
           (mkEnv (statuses ["pending"] "error") (always CaseTick))
           (within 5) theClient "gpu" "i-1" 1 (start 0)).
  - lia.
  - intros [|i] Hi; [reflexivity|lia].
  - reflexivity.
  - vm_compute. reflexivity.
  - lia.
Defined.

End Readiness.

(** ** Fetch failures, statusless snapshots, cancellation *)

Module Session.

Import context time provider_shadeform instance tfsdk Spec Rounds Scenarios.

(** A failed fetch is the last thing a run of the loop does: whatever the
    fuel, if the [n]-th request of the world was made by this run and
    failed with [e], the run has returned [e] and made no request since. *)
Lemma failed_fetch_is_last fuel : ∀ env ctx c name id tk w n e res w',
  pollLoop fuel env ctx c name id tk w = (res, w') ->
  (length (calls w) <= n < length (calls w'))%nat ->
  (answer (reply (remote env n)) true).2 = Some e ->
  res = Some (Some e) ∧ length (calls w') = S n.
Proof.
  induction fuel as [|fuel IH]; intros env ctx c name id tk w n e res w' Hrun Hn He.
  - cbn in Hrun. injection Hrun as <- <-. lia.
  - cbn [pollLoop] in Hrun.
    pose proof (select_calls env ctx tk w) as Hsc.
    destruct (select env ctx tk w) as [cs w1] eqn:Hsel. cbn [snd] in Hsc.
    destruct cs.
    + unfold iteration in Hrun. rewrite Hsel in Hrun.
      injection Hrun as <- <-. rewrite Hsc in Hn. lia.
    + rewrite (iteration_tick _ _ _ _ _ _ _ _ Hsel) in Hrun. cbv zeta in Hrun.
      rewrite Hsc in Hrun.
      destruct (decide (n = length (calls w))) as [->|Hne].
      * destruct (answer _ true) as [info [e'|]]; [|done].
        cbn [snd] in He. injection He as ->. by injection Hrun as <- <-.
      * destruct (answer _ true) as [info [e'|]].
        { injection Hrun as <- <-. cbn [calls length] in Hn. lia. }
        destruct (String.eqb _ "active");
          [|destruct (String.eqb _ "error")].
        -- injection Hrun as <- <-. cbn [tflog_Debug calls length] in Hn. lia.
        -- injection Hrun as <- <-. cbn [tflog_Debug calls length] in Hn. lia.
        -- eapply IH; [exact Hrun| |exact He].
           cbn [tflog_Debug calls length]. lia.
Qed.

(** C4. In every run of the poll loop, if the [N]-th status fetch of the
    session fails, the loop has returned that error at that tick and the
    failed fetch is the last request of the session: no retry. *)
Theorem fetch_error_ends_session fuel env ctx c name id interval w N e res w' :
  pollInstanceStatus fuel env ctx c name id interval w = (res, w') ->
  (1 <= N)%nat ->
  (length (calls w) + N <= length (calls w'))%nat ->
  (answer (reply (remote env (length (calls w) + N - 1))) true).2 = Some e ->
  res = Some (Returns (Some e))
  ∧ length (calls w') = (length (calls w) + N)%nat.
Proof.
  unfold pollInstanceStatus. intros Hrun HN Hlen He.
  destruct (NewTicker (now w) interval) as [tk|].
  - destruct (pollLoop fuel env ctx c name id tk w) as [r w1] eqn:Hloop.
    destruct (failed_fetch_is_last fuel env ctx c name id tk w
                (length (calls w) + N - 1) e r w1 Hloop) as [-> Hl].
    + destruct r; injection Hrun as <- <-; lia.
    + exact He.
    + injection Hrun as <- <-. split; [done|lia].
  - injection Hrun as <- <-. lia.
Qed.

(** C4 on a run whose second fetch gets no answer. *)
Lemma fetch_error_ends_session_witness :
  let run := pollInstanceStatus 5 (mkEnv (unreachableAt 1) (always CaseTick))
                                (within 5) theClient "gpu" "i-1" 1 (start 0) in
  run.1 = Some (Returns (Some (Errorf_w "failed to make request"
                                 (libError "connection reset by peer"))))
  ∧ length (calls run.2) = 2%nat.
Proof.
  intros run.
  apply (fetch_error_ends_session 5 (mkEnv (unreachableAt 1) (always CaseTick))
           (within 5) theClient "gpu" "i-1" 1 (start 0) 2 _ run.1 run.2).
  - vm_compute. reflexivity.
  - lia.
  - vm_compute. lia.
  - vm_compute. reflexivity.
Defined.

(** C9. A snapshot whose [status] is missing or is no string makes the
    round go on to the next tick, exactly as the same snapshot with the
    empty string as status would: the loop neither fails nor returns. When
    the round is the first of [pollInstanceStatus], the whole session runs
    as it would on that snapshot. *)
Theorem statusless_snapshot_continues env ctx c name id tk w w1 info text :
  select env ctx tk w = (CaseTick, w1) ->
  answer (reply (remote env (length (calls w)))) true = (info, None) ->
  (∀ s, info !! "status" ≠ Some (AnyString s)) ->
  let x := remote env (length (calls w)) in
  let w' := fetched w id (now w1) (elapsed x) (debugLine name id "") in
  let env' := withExchange env (length (calls w))
                (mkExchange (elapsed x)
                   (Replied StatusOK text
                      (inr (<["status" := AnyString ""]> info)))) in
  iteration env ctx c name id tk w = Continue (received tk (now w1)) w'
  ∧ iteration env' ctx c name id tk w = Continue (received tk (now w1)) w'
  ∧ (∀ fuel, pollLoop (S fuel) env ctx c name id tk w
             = pollLoop fuel env ctx c name id (received tk (now w1)) w')
  ∧ ∀ fuel interval,
      NewTicker (now w) interval = Some tk ->
      pollInstanceStatus fuel env ctx c name id interval w
      = pollInstanceStatus fuel env' ctx c name id interval w.
Proof.
  intros Hsel Hans Hno x w' env'. subst x.
  pose proof (select_calls env ctx tk w) as Hsc.
  rewrite Hsel in Hsc; cbn [snd] in Hsc.
  assert (Hst : (as_string (info !! "status")).1 = "").
  { destruct (info !! "status") as [[]|] eqn:Hi; try done.
    by destruct (Hno s). }
  assert (Hw : selects w1 = S (selects w) ∧ debug w1 = debug w).
  { unfold select in Hsel. destruct (doneAt ctx) as [[d e]|];
      repeat case_match; by simplify_eq. }
  destruct Hw as [Hw1 Hw2].
  assert (Hit : iteration env ctx c name id tk w
                = Continue (received tk (now w1)) w').
  { rewrite (iteration_tick _ _ _ _ _ _ _ _ Hsel). cbv zeta.
    rewrite Hsc, (took_answer _ _ _ Hans), Hans, Hst. cbn [String.eqb].
    unfold w', fetched, tflog_Debug. cbn [now calls selects debug].
    by rewrite Hw1, Hw2. }
  assert (Hit' : iteration env' ctx c name id tk w
                 = Continue (received tk (now w1)) w').
  { assert (Hsel' : select env' ctx tk w = (CaseTick, w1)) by exact Hsel.
    rewrite (iteration_tick _ _ _ _ _ _ _ _ Hsel'). cbv zeta.
    rewrite Hsc. unfold env', took; cbn [withExchange remote].
    rewrite !Nat.eqb_refl. cbn [reply elapsed answer sends].
    rewrite Z.eqb_refl. cbv beta iota delta [negb].
    rewrite lookup_insert_eq. cbn [as_string fst String.eqb].
    unfold w', fetched, tflog_Debug. cbn [now calls selects debug].
    by rewrite Hw1, Hw2. }
  split; [exact Hit|]. split; [exact Hit'|]. split.
  - intros fuel. cbn [pollLoop]. by rewrite Hit.
  - intros fuel interval Htk. unfold pollInstanceStatus. rewrite Htk.
    destruct fuel as [|fuel]; [done|]. cbn [pollLoop]. rewrite Hit, Hit'.
    rewrite (pollLoop_ext fuel env env'); [done|done|].
    intros n Hn. unfold env'; cbn [withExchange remote].
    destruct (Nat.eqb_spec n (length (calls w))) as [->|]; [|done].
    unfold w', fetched in Hn. cbn [calls length] in Hn. lia.
Qed.

(** C9 on a reply that has no [status] field. *)
Lemma statusless_snapshot_continues_witness :
  let env := mkEnv (fun _ => statusless) (always CaseTick) in
  let tk := mkTicker 1 1 in
  let w' := fetched (start 0) "i-1" 1 0 (debugLine "gpu" "i-1" "") in
  iteration env (within 5) theClient "gpu" "i-1" tk (start 0)
  = Continue (received tk 1) w'
  ∧ iteration
      (withExchange env 0
         (mkExchange 0
            (Replied 200 (jsonText "status" "")
               (inr (<["status" := AnyString ""]>
                       {[ "name" := AnyString "gpu" ]}))))) (within 5)
      theClient "gpu" "i-1" tk (start 0)
    = Continue (received tk 1) w'
  ∧ (∀ fuel, pollLoop (S fuel) env (within 5) theClient "gpu" "i-1" tk
                      (start 0)
             = pollLoop fuel env (within 5) theClient "gpu" "i-1"
                        (received tk 1) w')
  ∧ ∀ fuel interval,
      NewTicker 0 interval = Some tk ->
      pollInstanceStatus fuel env (within 5) theClient "gpu" "i-1" interval
                         (start 0)
      = pollInstanceStatus fuel
          (withExchange env 0
             (mkExchange 0
                (Replied 200 (jsonText "status" "")
                   (inr (<["status" := AnyString ""]>
                           {[ "name" := AnyString "gpu" ]})))))
          (within 5) theClient "gpu" "i-1" interval (start 0).
Proof.
  intros env tk w'.
  apply (statusless_snapshot_continues env (within 5) theClient "gpu" "i-1"
           tk (start 0) (mkWorld 1 [] 1 []) {[ "name" := AnyString "gpu" ]}
           (jsonText "status" "")).
  - vm_compute. reflexivity.
  - vm_compute. reflexivity.
  - intros s. vm_compute. discriminate.
Defined.

(** C8. A cancellation that arrives while the loop waits in [select], before
    the next tick and before the deadline, makes the loop return
    [context.Canceled] at the very instant of the signal, without another
    fetch: the wait does not sit out the interval. When the wait is the
    first of [pollInstanceStatus], that is what the function returns. *)
Theorem cancel_interrupts_wait fuel env ctx c name id tk w t :
  cancelAt ctx = Some t ->
  (∀ d, deadline ctx = Some d -> t < d) ->
  now w <= t < next tk ->
  ∃ w', pollLoop (S fuel) env ctx c name id tk w = (Some (Some Canceled), w')
        ∧ now w' = t ∧ calls w' = calls w
        ∧ ∀ interval,
            NewTicker (now w) interval = Some tk ->
            pollInstanceStatus (S fuel) env ctx c name id interval w
            = (Some (Returns (Some Canceled)), w').
Proof.
  intros Hc Hd Ht.
  assert (Hdone : doneAt ctx = Some (t, Canceled)).
  { unfold doneAt. rewrite Hc. destruct (deadline ctx) as [d|]; [|done].
    specialize (Hd d eq_refl). by destruct (Z.leb_spec t d); [|lia]. }
  assert (Hloop : pollLoop (S fuel) env ctx c name id tk w
                  = (Some (Some Canceled),
                     {| now := t; calls := calls w; selects := S (selects w);
                        debug := debug w |})).
  { cbn [pollLoop]. unfold iteration.
    rewrite (select_done env ctx tk w t Canceled Hdone) by lia.
    cbn [now]. rewrite (Err_done ctx t Canceled) by (done || lia).
    by replace (Z.max (now w) t) with t by lia. }
  eexists. split; [exact Hloop|]. split; [done|]. split; [done|].
  intros interval Htk. unfold pollInstanceStatus. by rewrite Htk, Hloop.
Qed.

(** C8 on a signal five seconds after the tick at 15 s. *)
Lemma cancel_interrupts_wait_witness :
  ∃ w', pollLoop 1 (mkEnv (statuses [] "pending") (always CaseTick))
                 (mkContext (Some (3600 * Second)) (Some (20 * Second)))
                 theClient "gpu" "i-1"
                 (mkTicker (15 * Second) (30 * Second))
                 (mkWorld (15 * Second) [] 1 [])
        = (Some (Some Canceled), w')
        ∧ now w' = 20 * Second ∧ calls w' = []
        ∧ ∀ interval,
            NewTicker (15 * Second) interval
            = Some (mkTicker (15 * Second) (30 * Second)) ->
            pollInstanceStatus 1
              (mkEnv (statuses [] "pending") (always CaseTick))
              (mkContext (Some (3600 * Second)) (Some (20 * Second)))
              theClient "gpu" "i-1" interval (mkWorld (15 * Second) [] 1 [])
            = (Some (Returns (Some Canceled)), w').
Proof.
  apply (cancel_interrupts_wait 0
           (mkEnv (statuses [] "pending") (always CaseTick))
           (mkContext (Some (3600 * Second)) (Some (20 * Second)))
           theClient "gpu" "i-1" (mkTicker (15 * Second) (30 * Second))
           (mkWorld (15 * Second) [] 1 []) (20 * Second)).
  - reflexivity.
  - intros d Hd. injection Hd as <-. vm_compute. reflexivity.
  - vm_compute. split; [discriminate|reflexivity].
Defined.

End Session.

(** ** The deadline *)

Module Deadline.

Import context time provider_shadeform instance tfsdk Spec Rounds Scenarios.

(** A round whose [select] takes the tick and whose fetch shows an instance
    still provisioning. *)
Lemma iteration_tick_provisioning env ctx c name id tk w t :
  select env ctx tk w
  = (CaseTick, {| now := t; calls := calls w; selects := S (selects w);
                  debug := debug w |}) ->
  provisioning (remote env (length (calls w))) = true ->
  ∃ line, iteration env ctx c name id tk w
          = Continue (received tk t)
                     (fetched w id t (elapsed (remote env (length (calls w))))
                              line).
Proof.
  intros Hsel (status & Hobs & [Ha He]%terminal_false)%provisioning_observed.
  rewrite (iteration_tick _ _ _ _ _ _ _ _ Hsel). cbn [calls now selects debug].
  rewrite (took_observed _ _ Hobs). unfold observed in Hobs.
  destruct (answer _ true) as [info [e|]]; [done|].
  injection Hobs as <-. cbv zeta. rewrite Ha, He. by eexists.
Qed.

(** With no tick pending, all fetches quick and the instance provisioning
    for good, the loop serves the ticks before the deadline [d], possibly
    the one at [d], and then returns [DeadlineExceeded]. *)
Lemma deadline_rounds m : ∀ fuel env ctx c name id tk w d,
  0 < period tk -> now w < next tk ->
  doneAt ctx = Some (d, DeadlineExceeded) ->
  (∀ n, (length (calls w) <= n)%nat ->
        provisioning (remote env n) = true
        ∧ Z.of_N (elapsed (remote env n)) < period tk) ->
  d < next tk + Z.of_nat m * period tk ->
  (m < fuel)%nat ->
  ∃ w' new,
    pollLoop fuel env ctx c name id tk w = (Some (Some DeadlineExceeded), w')
    ∧ calls w' = new ++ calls w
    ∧ Forall (λ call, at_time call <= d) new
    ∧ d <= next tk + Z.of_nat (length new) * period tk
    ∧ (new = [] ∨ next tk + (Z.of_nat (length new) - 1) * period tk <= d).
Proof.
  induction m as [|m IH];
    intros fuel env ctx c name id tk w d Hp Hnow Hdone Henv Hd Hfuel;
    (destruct fuel as [|fuel]; [lia|]); cbn [pollLoop].
  all: assert (Hearly : d < next tk ->
         ∃ w' new,
           match iteration env ctx c name id tk w with
           | Return err w' => (Some err, w')
           | Continue tk' w' => pollLoop fuel env ctx c name id tk' w'
           end = (Some (Some DeadlineExceeded), w')
           ∧ calls w' = new ++ calls w
           ∧ Forall (λ call, at_time call <= d) new
           ∧ d <= next tk + Z.of_nat (length new) * period tk
           ∧ (new = [] ∨ next tk + (Z.of_nat (length new) - 1) * period tk <= d)).
  1,3: intros Hlt; unfold iteration;
       rewrite (select_done env ctx tk w d DeadlineExceeded Hdone) by lia;
       cbn [now]; rewrite (Err_done ctx d DeadlineExceeded) by (done || lia);
       eexists _, []; split; [reflexivity|]; cbn [calls length];
       repeat split; auto; lia.
  - apply Hearly. lia.
  - destruct (Z.lt_ge_cases d (next tk)) as [Hlt|Hge]; [by apply Hearly|].
    clear Hearly.
    set (w1 := {| now := next tk; calls := calls w; selects := S (selects w);
                  debug := debug w |}).
    assert (Hsel : select env ctx tk w = (CaseTick, w1)
                   ∨ (d = next tk
                      ∧ select env ctx tk w = (CaseDone, w1))).
    { destruct (Z.eq_dec d (next tk)) as [Heq|Hne].
      - rewrite (select_tie env ctx tk w d DeadlineExceeded Hdone) by lia.
        replace (Z.max (now w) (next tk)) with (next tk) by lia. fold w1.
        destruct (pick env (selects w)); auto.
      - left. rewrite select_tick.
        + by replace (Z.max (now w) (next tk)) with (next tk) by lia.
        + unfold openAfter. rewrite Hdone. lia. }
    destruct Hsel as [Hsel|[Heq Hsel]].
    + destruct (Henv (length (calls w)) ltac:(lia)) as [Hprov Hel].
      destruct (iteration_tick_provisioning env ctx c name id tk w (next tk)
                  Hsel Hprov) as [line ->].
      set (el := elapsed (remote env (length (calls w)))) in *.
      destruct (IH fuel env ctx c name id (received tk (next tk))
                  (fetched w id (next tk) el line) d)
        as (w' & new & Hrun & Hcalls & Hall & Hup & Hlow).
      * done.
      * rewrite received_prompt by done. unfold fetched; cbn [now]. lia.
      * done.
      * intros n Hn. apply Henv. unfold fetched in Hn; cbn [calls length] in Hn.
        lia.
      * rewrite received_prompt by done.
        change (period (received tk (next tk))) with (period tk). lia.
      * lia.
      * rewrite received_prompt in Hup, Hlow by done.
        change (period (received tk (next tk))) with (period tk) in *.
        exists w', (new ++ [mkCall (next tk) "GET" (instanceInfoRoute id) None]).
        split; [exact Hrun|]. split.
        { rewrite Hcalls. unfold fetched; cbn [calls]. by rewrite <- app_assoc. }
        split.
        { apply Forall_app. split; [done|]. apply Forall_singleton. cbn. lia. }
        rewrite length_app. cbn [length]. split; [lia|]. right.
        destruct Hlow as [->|Hlow]; cbn [length]; lia.
    + unfold iteration. rewrite Hsel. unfold w1; cbn [now].
      rewrite (Err_done ctx d DeadlineExceeded) by (done || lia).
      eexists _, []. split; [reflexivity|]. cbn [calls length].
      repeat split; auto; lia.
Qed.

Lemma poll_until_deadline m fuel env ctx c name id interval w d :
  0 < interval ->
  doneAt ctx = Some (d, DeadlineExceeded) ->
  (∀ n, (length (calls w) <= n)%nat ->
        provisioning (remote env n) = true
        ∧ Z.of_N (elapsed (remote env n)) < interval) ->
  d < now w + interval + Z.of_nat m * interval ->
  (m < fuel)%nat ->
  ∃ w' new,
    pollInstanceStatus fuel env ctx c name id interval w
    = (Some (Returns (Some DeadlineExceeded)), w')
    ∧ calls w' = new ++ calls w
    ∧ Forall (λ call, at_time call <= d) new
    ∧ d <= now w + interval + Z.of_nat (length new) * interval
    ∧ (new = [] ∨ now w + Z.of_nat (length new) * interval <= d).
Proof.
  intros Hi Hdone Henv Hd Hfuel. unfold pollInstanceStatus, NewTicker.
  destruct (Z.leb_spec interval 0); [lia|].
  destruct (deadline_rounds m fuel env ctx c name id
              {| period := interval; next := now w + interval |} w d)
    as (w' & new & -> & Hcalls & Hall & Hup & Hlow);
    cbn [period next] in *; try done; try lia.
  exists w', new. repeat split; auto.
  destruct Hlow as [->|Hlow]; [by left|right; lia].
Qed.

Lemma pollLoop_S fuel env ctx c name id tk w :
  pollLoop (S fuel) env ctx c name id tk w
  = match iteration env ctx c name id tk w with
    | Return err w' => (Some err, w')
    | Continue tk' w' => pollLoop fuel env ctx c name id tk' w'
    end.
Proof. reflexivity. Qed.

(** The rounds up to the deadline [d], fetch by fetch. [k] ticks fall
    strictly before [d] and the next one does not; no tick is pending. Only
    the fetches the loop makes are asked to show a provisioning instance
    and to be back before the next tick: those at the [k] ticks, and the one
    at the tick on the deadline instant if [select] takes that tick. The
    loop then returns [DeadlineExceeded] after exactly those fetches. *)
Lemma deadline_ticks k : ∀ fuel env ctx c name id tk w d,
  0 < period tk -> now w < next tk ->
  doneAt ctx = Some (d, DeadlineExceeded) ->
  (k = 0%nat ∨ next tk + (Z.of_nat k - 1) * period tk < d) ->
  d <= next tk + Z.of_nat k * period tk ->
  (∀ i, (i < k)%nat ->
        provisioning (remote env (length (calls w) + i)) = true
        ∧ Z.of_N (elapsed (remote env (length (calls w) + i))) < period tk) ->
  (d = next tk + Z.of_nat k * period tk ->
   pick env (selects w + k) = CaseTick ->
   provisioning (remote env (length (calls w) + k)) = true
   ∧ Z.of_N (elapsed (remote env (length (calls w) + k))) < period tk) ->
  (S k < fuel)%nat ->
  ∃ w' new,
    pollLoop fuel env ctx c name id tk w = (Some (Some DeadlineExceeded), w')
    ∧ calls w' = new ++ calls w
    ∧ Forall (λ call, fetchOf id (next tk) call ∧ at_time call <= d) new
    ∧ length new
      = if decide (d = next tk + Z.of_nat k * period tk
                   ∧ pick env (selects w + k) = CaseTick)
        then S k else k.
Proof.
  induction k as [|k IH];
    intros fuel env ctx c name id tk w d Hp Hnow Hdone Hlow Hup Hprov Htie
           Hfuel.
  - destruct fuel as [|[|fuel]]; [lia|lia|]. clear Hlow Hprov Hfuel.
    rewrite !Nat.add_0_r in *. change (Z.of_nat 0) with 0 in *.
    rewrite Z.mul_0_l, Z.add_0_r in *. rewrite pollLoop_S.
    destruct (Z.lt_ge_cases d (next tk)) as [Hlt|Hge].
    + unfold iteration.
      rewrite (select_done env ctx tk w d DeadlineExceeded Hdone) by lia.
      cbn [now]. rewrite (Err_done ctx d DeadlineExceeded) by (done || lia).
      eexists _, []. split; [reflexivity|]. split; [done|].
      split; [by constructor|]. rewrite decide_False; [done|].
      intros [? _]. lia.
    + assert (d = next tk) as -> by lia.
      pose proof (select_tie env ctx tk w (next tk) DeadlineExceeded Hdone
                    eq_refl) as Hsel.
      replace (Z.max (now w) (next tk)) with (next tk) in Hsel by lia.
      destruct (pick env (selects w)) eqn:Hpick.
      * unfold iteration. rewrite Hsel. cbn [now].
        rewrite (Err_done ctx (next tk) DeadlineExceeded) by (done || lia).
        eexists _, []. split; [reflexivity|]. split; [done|].
        split; [by constructor|]. rewrite decide_False; [done|].
        by intros [_ ?].
      * destruct (Htie eq_refl eq_refl) as [Hpr Hel].
        destruct (iteration_tick_provisioning env ctx c name id tk w (next tk)
                    Hsel Hpr) as [line ->].
        set (el := elapsed (remote env (length (calls w)))) in *.
        rewrite pollLoop_S. unfold iteration.
        rewrite (select_done env ctx (received tk (next tk))
                   (fetched w id (next tk) el line) (next tk)
                   DeadlineExceeded Hdone)
          by (rewrite received_prompt by done; unfold fetched; cbn [now]; lia).
        cbn [now].
        rewrite (Err_done ctx (next tk) DeadlineExceeded)
          by (done || (unfold fetched; cbn [now]; lia)).
        eexists _, [_]. split; [reflexivity|]. unfold fetched; cbn [calls].
        split; [done|]. split.
        { apply Forall_singleton. repeat split; cbn; lia. }
        by rewrite decide_True.
  - destruct fuel as [|fuel]; [lia|].
    assert (Hk : next tk + Z.of_nat k * period tk < d).
    { destruct Hlow as [|Hlow]; [done|]. lia. }
    assert (Hkp : 0 <= Z.of_nat k * period tk) by nia.
    rewrite pollLoop_S.
    assert (Hsel : select env ctx tk w
                   = (CaseTick, {| now := next tk; calls := calls w;
                                   selects := S (selects w);
                                   debug := debug w |})).
    { rewrite select_tick.
      - by replace (Z.max (now w) (next tk)) with (next tk) by lia.
      - unfold openAfter. rewrite Hdone. lia. }
    destruct (Hprov 0%nat ltac:(lia)) as [Hpr Hel].
    rewrite Nat.add_0_r in Hpr, Hel.
    destruct (iteration_tick_provisioning env ctx c name id tk w (next tk)
                Hsel Hpr) as [line ->].
    set (el := elapsed (remote env (length (calls w)))) in *.
    set (tk1 := received tk (next tk)).
    set (w1 := fetched w id (next tk) el line).
    assert (Hn1 : next tk1 = next tk + period tk)
      by (unfold tk1; by rewrite received_prompt).
    assert (Hp1 : period tk1 = period tk) by done.
    assert (Hc1 : calls w1
                  = mkCall (next tk) "GET" (instanceInfoRoute id) None
                    :: calls w) by done.
    assert (Hs1 : selects w1 = S (selects w)) by done.
    assert (Hw1 : now w1 = next tk + Z.of_N el) by done.
    destruct (IH fuel env ctx c name id tk1 w1 d)
      as (w' & new & Hrun & Hcalls & Hall & Hlen).
    + lia.
    + lia.
    + done.
    + rewrite Hn1, Hp1. destruct k; [by left|right; lia].
    + rewrite Hn1, Hp1. lia.
    + intros i Hi. rewrite Hc1, Hp1. cbn [length].
      replace (S (length (calls w)) + i)%nat
        with (length (calls w) + S i)%nat by lia.
      apply Hprov. lia.
    + intros Hd Hpick. rewrite Hc1, Hp1. cbn [length].
      replace (S (length (calls w)) + k)%nat
        with (length (calls w) + S k)%nat by lia.
      apply Htie; [rewrite Hn1, Hp1 in Hd; lia|].
      rewrite Hs1 in Hpick.
      by replace (selects w + S k)%nat with (S (selects w) + k)%nat by lia.
    + lia.
    + exists w', (new ++ [mkCall (next tk) "GET" (instanceInfoRoute id) None]).
      split; [exact Hrun|]. split.
      { rewrite Hcalls, Hc1. by rewrite <- app_assoc. }
      split.
      { apply Forall_app. split.
        - eapply Forall_impl; [exact Hall|].
          intros x [(? & ? & ? & Hx) ?]. repeat split; auto. lia.
        - apply Forall_singleton. repeat split; cbn; lia. }
      rewrite length_app, Hlen. cbn [length].
      rewrite (decide_ext
                 (d = next tk1 + Z.of_nat k * period tk1
                  ∧ pick env (selects w1 + k) = CaseTick)
                 (d = next tk + Z.of_nat (S k) * period tk
                  ∧ pick env (selects w + S k) = CaseTick)).
      * repeat case_decide; first [lia|tauto].
      * rewrite Hn1, Hp1, Hs1.
        replace (S (selects w) + k)%nat with (selects w + S k)%nat by lia.
        split; intros [? ?]; (split; [lia|done]).
Qed.

(** C7, as the code has it. There is a deadline [d] and no cancellation;
    [k] ticks fall strictly before [d], the next one not. The fetches at
    those ticks show no terminal status and are back before the next tick
    is due, and so does the fetch at the tick on the deadline instant, if
    there is such a tick and [select] takes it; nothing is asked of what
    the remote would answer later. Then the poll loop returns
    [DeadlineExceeded] (TimedOut); it has made those fetches of the
    instance and no other request, [k] of them, or [k + 1] when the tick
    on the deadline instant was served, and none starts after the
    deadline. *)
Theorem timed_out_at_deadline k fuel env ctx c name id interval w d :
  0 < interval ->
  deadline ctx = Some d -> cancelAt ctx = None ->
  (k = 0%nat ∨ now w + Z.of_nat k * interval < d) ->
  d <= now w + (Z.of_nat k + 1) * interval ->
  (∀ i, (i < k)%nat ->
        provisioning (remote env (length (calls w) + i)) = true
        ∧ Z.of_N (elapsed (remote env (length (calls w) + i))) < interval) ->
  (d = now w + (Z.of_nat k + 1) * interval ->
   pick env (selects w + k) = CaseTick ->
   provisioning (remote env (length (calls w) + k)) = true
   ∧ Z.of_N (elapsed (remote env (length (calls w) + k))) < interval) ->
  (S k < fuel)%nat ->
  ∃ w' new,
    pollInstanceStatus fuel env ctx c name id interval w
    = (Some (Returns (Some DeadlineExceeded)), w')
    ∧ calls w' = new ++ calls w
    ∧ Forall (λ call, fetchOf id (now w + interval) call ∧ at_time call <= d)
             new
    ∧ length new
      = if decide (d = now w + (Z.of_nat k + 1) * interval
                   ∧ pick env (selects w + k) = CaseTick)
        then S k else k.
Proof.
  intros Hi Hd Hc Hlow Hup Hprov Htie Hfuel.
  unfold pollInstanceStatus, NewTicker.
  destruct (Z.leb_spec interval 0); [lia|].
  assert (Hdone : doneAt ctx = Some (d, DeadlineExceeded)).
  { unfold doneAt. by rewrite Hc, Hd. }
  destruct (deadline_ticks k fuel env ctx c name id
              {| period := interval; next := now w + interval |} w d)
    as (w' & new & -> & Hcalls & Hall & Hlen); cbn [period next] in *;
    try done; try lia.
  { intros Heq. apply Htie. lia. }
  exists w', new. split; [done|]. split; [done|]. split; [done|].
  rewrite Hlen. apply decide_ext.
  split; intros [? ?]; (split; [lia|done]).
Qed.

(** C7 on a run with interval 1 and deadline 2 whose remote shows the
    instance pending twice and active from then on: the tick at the
    deadline is served, the loop times out after two fetches and never
    sees the active instance. *)
Lemma timed_out_at_deadline_witness :
  ∃ w' new,
    pollInstanceStatus 3 (mkEnv (statuses ["pending"; "pending"] "active")
                                (always CaseTick))
                       (within 2) theClient "gpu" "i-1" 1 (start 0)
    = (Some (Returns (Some DeadlineExceeded)), w')
    ∧ calls w' = new ++ []
    ∧ Forall (λ call, fetchOf "i-1" 1 call ∧ at_time call <= 2) new
    ∧ length new = 2%nat.
Proof.
  apply (timed_out_at_deadline 1 3
           (mkEnv (statuses ["pending"; "pending"] "active") (always CaseTick))
           (within 2) theClient "gpu" "i-1" 1 (start 0) 2).
  - lia.
  - reflexivity.
  - reflexivity.
  - right. vm_compute. reflexivity.
  - vm_compute. discriminate.
  - intros [|i] Hi; [|lia]. split; [reflexivity|]. vm_compute. reflexivity.
  - intros _ _. split; [reflexivity|]. vm_compute. reflexivity.
  - lia.
Defined.

(** Interval 1, deadline 2, the instance pending for good: whatever
    [select] picks at the tie, the loop times out after one or two
    fetches. *)
Lemma one_or_two_fetches (p : nat -> Case) :
  ∃ w', pollInstanceStatus 3 (mkEnv (statuses [] "pending") p) (within 2)
                           theClient "gpu" "i-1" 1 (start 0)
        = (Some (Returns (Some DeadlineExceeded)), w')
        ∧ (length (calls w') = 1%nat ∨ length (calls w') = 2%nat).
Proof.
  destruct (poll_until_deadline 2 3 (mkEnv (statuses [] "pending") p)
              (within 2) theClient "gpu" "i-1" 1 (start 0) 2)
    as (w' & new & Hrun & Hcalls & _ & Hup & Hlow); try lia; try done.
  { intros n _. split; [by destruct n|]. vm_compute. reflexivity. }
  exists w'. split; [exact Hrun|]. rewrite Hcalls, app_nil_r.
  cbn [now start] in Hup, Hlow.
  destruct Hlow as [->|Hlow]; [cbn in Hup; lia|]. lia.
Qed.

(** C7 as stated fails. On the run of the specification (interval 1,
    deadline 2, always pending) the second tick and the deadline fall on
    the same instant; when [select] takes [ctx.Done()] the loop times out
    after one fetch, not two. And a fetch that outlasts the deadline leaves
    a tick pending beside the closed context: [select] may take the tick,
    so that a fetch starts at 5, after the deadline 2, and the loop even
    returns [nil]. *)
Lemma timed_out_after_two_fetches_counterexample :
  let run := pollInstanceStatus 3
               (mkEnv (statuses [] "pending") (always CaseDone))
               (within 2) theClient "gpu" "i-1" 1 (start 0) in
  let late := pollInstanceStatus 3 (mkEnv slowThenActive (always CaseTick))
                (within 2) theClient "gpu" "i-1" 1 (start 0) in
  (run.1 = Some (Returns (Some DeadlineExceeded))
   ∧ length (calls run.2) = 1%nat ∧ length (calls run.2) ≠ 2%nat)
  ∧ (late.1 = Some (Returns None) ∧ map at_time (calls late.2) = [5; 1]).
Proof. vm_compute. repeat split; discriminate. Qed.

End Deadline.

(** ** The update handler *)

Module Updating.

Import context time provider_shadeform instance tfsdk Spec Scenarios.

Lemma Equal_spec v o : Equal v o = true ↔ v = o.
Proof.
  destruct v, o; cbn; try (split; congruence).
  rewrite String.eqb_eq. split; congruence.
Qed.

Lemma renaming_lookup plan state k :
  renaming plan state !! k
  = if decide (k = "name" ∧ Name plan ≠ Name state)
    then Some (VString (ValueString (Name plan))) else None.
Proof.
  unfold renaming. destruct (decide (Name plan = Name state)) as [He|Hne].
  - rewrite lookup_empty. by rewrite decide_False by (intros [_ ?]; done).
  - destruct (decide (k = "name")) as [->|Hk].
    + rewrite lookup_singleton_eq. by rewrite decide_True.
    + rewrite lookup_singleton_ne by done.
      by rewrite decide_False by (intros [? _]; done).
Qed.

(** C10. When the plan and the state decode, [Update] sends one request to
    the update route; its body holds the key [name], with the planned name,
    if and only if the planned name differs from the name in state, and
    no other key: it is empty when the names are equal. What follows the
    update request has no body. When decoding fails nothing is sent. *)
Theorem update_sends_name_only env r ctx req resp w :
  let plan := update_Plan req in
  let state := update_State req in
  let decoded := appendDiags (appendDiags resp (update_PlanGet req))
                             (update_StateGet req) in
  let w' := (Update env r ctx req resp w).2 in
  if HasError (resp_Diagnostics decoded) then calls w' = calls w
  else
    ∃ b rest,
      calls w' = rest ++ mkCall (now w) "POST"
                           (instanceUpdateRoute (ValueString (Id state)))
                           (Some b) :: calls w
      ∧ Forall (λ c, body c = None) rest
      ∧ b = renaming plan state
      ∧ (is_Some (b !! "name") ↔ Name plan ≠ Name state)
      ∧ (∀ k, k ≠ "name" -> b !! k = None)
      ∧ (Name plan = Name state -> b = ∅).
Proof.
  intros plan state decoded w'. subst w'. unfold Update. fold plan state decoded.
  destruct (HasError (resp_Diagnostics decoded)); [done|].
  assert (Hbody : (if negb (Equal (Name plan) (Name state))
                   then <["name" := VString (ValueString (Name plan))]> ∅
                   else ∅) = renaming plan state).
  { unfold renaming. destruct (decide (Name plan = Name state)) as [He|Hne].
    - apply Equal_spec in He. by rewrite He.
    - destruct (Equal (Name plan) (Name state)) eqn:He.
      + by apply Equal_spec in He.
      + cbn [negb]. by rewrite insert_empty. }
  rewrite Hbody. clear Hbody.
  assert (Hprops : (is_Some (renaming plan state !! "name")
                    ↔ Name plan ≠ Name state)
                   ∧ (∀ k, k ≠ "name" -> renaming plan state !! k = None)
                   ∧ (Name plan = Name state -> renaming plan state = ∅)).
  { split; [|split].
    - rewrite renaming_lookup. case_decide as H.
      + split; [by intros _; destruct H|by eauto].
      + split; [by intros []|]. intros Hne. destruct H. done.
    - intros k Hk. rewrite renaming_lookup.
      by rewrite decide_False by (intros [? _]; done).
    - intros He. unfold renaming. by rewrite decide_True. }
  unfold UpdateInstance, makeRequestNoResponse, makeRequest.
  destruct (answer _ false) as [m [e|]]; cbn [snd].
  - exists (renaming plan state), []. done.
  - unfold GetInstance, makeRequest.
    destruct (answer _ true) as [info [e|]]; cbn [snd calls];
      eexists (renaming plan state), [_]; (split; [reflexivity|]);
      (split; [by apply Forall_singleton|done]).
Qed.

(** A rename sends the new name; an unchanged plan sends the empty body. *)
Example update_bodies :
  let env := mkEnv (λ _, object 0 "name" "gpu-2") (always CaseTick) in
  let sent plan :=
    body <$> last (calls (Update env theResource Background
                            (mkUpdateRequest plan [] (gpuState "gpu") [])
                            noResponse (start 0)).2) in
  sent (gpuPlan "gpu-2" noTimeouts)
  = Some (Some {[ "name" := VString "gpu-2" ]})
  ∧ sent (gpuPlan "gpu" noTimeouts) = Some (Some ∅).
Proof. split; vm_compute; reflexivity. Qed.

End Updating.

(** ** The create handler *)

Module Creating.

Import context time provider_shadeform instance tfsdk Spec Rounds Scenarios.

Lemma select_tick_world env ctx tk w w1 :
  select env ctx tk w = (CaseTick, w1) ->
  w1 = {| now := Z.max (now w) (next tk); calls := calls w;
          selects := S (selects w); debug := debug w |}.
Proof.
  unfold select. destruct (doneAt ctx) as [[d e]|].
  - repeat case_match; intros; by simplify_eq.
  - intros; by simplify_eq.
Qed.

Lemma Err_cases ctx t e :
  Err ctx t = Some e -> e = DeadlineExceeded ∨ e = Canceled.
Proof.
  unfold Err, doneAt.
  destruct (cancelAt ctx), (deadline ctx); repeat case_match;
    intros; simplify_eq; auto.
Qed.

(** When [select] takes [ctx.Done()], [ctx.Err()] is not nil. *)
Lemma select_done_err env ctx tk w w1 :
  select env ctx tk w = (CaseDone, w1) -> ∃ e, Err ctx (now w1) = Some e.
Proof.
  unfold select, Err. destruct (doneAt ctx) as [[d e]|]; [|done].
  intros Hsel. exists e.
  destruct (Z.ltb_spec (Z.max (now w) d) (Z.max (now w) (next tk))).
  - injection Hsel as <-. cbn [now]. by destruct (Z.leb_spec d (Z.max (now w) d)); [|lia].
  - destruct (Z.ltb_spec (Z.max (now w) (next tk)) (Z.max (now w) d));
      [done|].
    injection Hsel as _ <-. cbn [now].
    by destruct (Z.leb_spec d (Z.max (now w) (next tk))); [|lia].
Qed.

(** What a run of the loop asks of the API, whatever the fuel: status
    fetches of [id] only, the first when the first tick is due; and it
    returns [nil] only after a fetch. *)
Lemma pollLoop_fetches fuel : ∀ env ctx c name id tk w,
  ∃ new,
    calls (pollLoop fuel env ctx c name id tk w).2 = new ++ calls w
    ∧ Forall (fetchOf id (Z.max (now w) (next tk))) new
    ∧ (new = []
       ∨ last new = Some (mkCall (Z.max (now w) (next tk)) "GET"
                                 (instanceInfoRoute id) None))
    ∧ ((pollLoop fuel env ctx c name id tk w).1 = Some None -> new ≠ []).
Proof.
  induction fuel as [|fuel IH]; intros env ctx c name id tk w.
  - exists []. cbn. repeat split; auto.
  - cbn [pollLoop].
    destruct (select env ctx tk w) as [cs w1] eqn:Hsel. destruct cs.
    + unfold iteration. rewrite Hsel. cbn [fst snd].
      pose proof (select_calls env ctx tk w) as Hsc. rewrite Hsel in Hsc.
      exists []. cbn [snd] in Hsc. rewrite Hsc. repeat split; auto.
      destruct (select_done_err _ _ _ _ _ Hsel) as [e ->]. done.
    + rewrite (iteration_tick _ _ _ _ _ _ _ _ Hsel). cbv zeta.
      apply select_tick_world in Hsel. subst w1. cbn [now calls selects debug].
      set (T := Z.max (now w) (next tk)).
      set (call := mkCall T "GET" (instanceInfoRoute id) None).
      assert (Hone : Forall (fetchOf id T) [call]
                     ∧ ([call] = [] ∨ last [call] = Some call)).
      { split; [|by right]. apply Forall_singleton. by repeat split. }
      destruct (answer _ true) as [info [e|]].
      { exists [call]. cbn [fst snd calls]. by destruct Hone. }
      destruct (String.eqb _ "active");
        [|destruct (String.eqb _ "error")].
      1,2: exists [call]; cbn [fst snd tflog_Debug calls]; by destruct Hone.
      match goal with
      | |- context [pollLoop fuel env ctx c name id ?tk' ?w'] =>
          destruct (IH env ctx c name id tk' w')
            as (new & Hcalls & Hall & Hlast & Hnil);
          assert (Hlater : T <= Z.max (now w') (next tk'))
            by (cbn [tflog_Debug now];
                pose proof (took_nonneg (remote env (length (calls w)))); lia)
      end.
      exists (new ++ [call]). rewrite Hcalls.
      cbn [tflog_Debug calls]. rewrite <- app_assoc.
      split; [done|]. split; [|split].
      * apply Forall_app. split; [|by destruct Hone].
        eapply Forall_impl; [exact Hall|].
        intros x (? & ? & ? & Hx). repeat split; auto. lia.
      * right. by rewrite last_snoc.
      * intros _. by destruct new.
Qed.

Lemma length_append (a b : string) :
  String.length (a +:+ b) = (String.length a + String.length b)%nat.
Proof.
  induction a as [|x a IH]; [done|].
  change (S (String.length (a +:+ b))
          = S (String.length a + String.length b)).
  by rewrite IH.
Qed.

Lemma create_is_no_delete id : instanceCreateRoute ≠ instanceDeleteRoute id.
Proof.
  unfold instanceCreateRoute, instanceDeleteRoute. intros H.
  apply (f_equal String.length) in H.
  rewrite !length_append in H. cbn in H. lia.
Qed.

(** What [provision] asks of the API and what it goes on with. *)
Lemma provision_proceeds P env r req resp w id T resp1 w1 :
  provision P env r req resp w = inr (id, T, resp1, w1) ->
  T = configured P (Timeouts (create_Plan req))
  ∧ ∃ b, calls w1 = mkCall (now w) "POST" instanceCreateRoute (Some b)
                    :: calls w.
Proof.
  unfold provision. repeat case_match; try done.
  intros; simplify_eq.
  match goal with H : CreateInstance _ _ _ _ = _ |- _ =>
    unfold CreateInstance, makeRequest in H; injection H as _ <- end.
  split; [|by eexists].
  match goal with H : timeouts.Create _ _ _ = _ |- _ =>
    unfold timeouts.Create in H; unfold configured;
    repeat case_match; simplify_eq; cbn [ValueString] in *; congruence end.
Qed.

Lemma provision_returns P env r req resp w resp1 w1 :
  provision P env r req resp w = inl (resp1, w1) ->
  calls w1 = calls w
  ∨ ∃ b, calls w1 = mkCall (now w) "POST" instanceCreateRoute (Some b)
                    :: calls w.
Proof.
  unfold provision. repeat case_match; try done; intros; simplify_eq; auto.
  all: match goal with H : CreateInstance _ _ _ _ = _ |- _ =>
         unfold CreateInstance, makeRequest in H; injection H as _ <- end.
  all: right; by eexists.
Qed.

Lemma finish_calls env r plan id resp polled w :
  calls (finish env r plan id resp polled w).2 = calls w
  ∨ (polled = None
     ∧ calls (finish env r plan id resp polled w).2
       = mkCall (now w) "GET" (instanceInfoRoute id) None :: calls w).
Proof.
  unfold finish. destruct polled as [err|]; [by left|right].
  unfold GetInstance, makeRequest. split; [done|].
  by destruct (answer _ true) as [info [e|]].
Qed.

(** Once the instance exists, [Create] asks the API for its status and for
    nothing else, first fifteen seconds after the create call returned. *)
Lemma create_after_provision P fuel env r ctx req resp w id T resp1 w1 :
  provision P env r req resp w = inr (id, T, resp1, w1) ->
  ∃ new,
    calls (Create P fuel env r ctx req resp w).2 = new ++ calls w1
    ∧ Forall (λ c, method c = "GET" ∧ path c = instanceInfoRoute id) new
    ∧ (new = []
       ∨ last new = Some (mkCall (now w1 + 15 * Second) "GET"
                                 (instanceInfoRoute id) None)).
Proof.
  intros Hprov. unfold Create. rewrite Hprov.
  unfold pollInstanceStatus, NewTicker.
  change (15 * Second <=? 0) with false. cbv beta iota.
  set (ctx' := WithTimeout ctx (now w1) T).
  set (tk := {| period := 15 * Second; next := now w1 + 15 * Second |}).
  destruct (pollLoop_fetches fuel env ctx' (client r)
              (ValueString (Name (create_Plan req))) id tk w1)
    as (new & Hcalls & Hall & Hlast & Hnil).
  replace (Z.max (now w1) (next tk)) with (now w1 + 15 * Second) in *
    by (cbn [next tk]; unfold Second, Nanosecond; lia).
  assert (Hget : Forall (λ c, method c = "GET" ∧ path c = instanceInfoRoute id)
                        new).
  { eapply Forall_impl; [exact Hall|]. by intros x (? & ? & _). }
  destruct (pollLoop fuel env ctx' (client r) _ id tk w1) as [[err|] w2];
    cbn [fst snd] in *; [|by exists new].
  pose proof (finish_calls env r (create_Plan req) id resp1 err w2) as Hfin.
  destruct (finish env r (create_Plan req) id resp1 err w2) as [resp2 w3].
  cbn [snd] in *. destruct Hfin as [->|[-> ->]]; [by exists new|].
  exists (mkCall (now w2) "GET" (instanceInfoRoute id) None :: new).
  rewrite Hcalls. split; [done|].
  assert (Hne : new ≠ []) by auto.
  destruct Hlast as [|Hlast]; [done|]. split.
  - by constructor.
  - right. by rewrite last_cons, Hlast.
Qed.

(** No run of [Create] calls [DeleteInstance]. *)
Lemma create_never_deletes P fuel env r ctx req resp w :
  ∃ new, calls (Create P fuel env r ctx req resp w).2 = new ++ calls w
         ∧ Forall (λ c, ¬ isDelete c) new.
Proof.
  destruct (provision P env r req resp w)
    as [[resp1 w1]|[[[id T] resp1] w1]] eqn:Hprov.
  - unfold Create. rewrite Hprov. cbn [snd].
    destruct (provision_returns _ _ _ _ _ _ _ _ Hprov) as [->|[b ->]].
    + by exists [].
    + eexists [_]. split; [done|]. apply Forall_singleton.
      intros [_ [id Hid]]. by apply create_is_no_delete in Hid.
  - destruct (create_after_provision P fuel env r ctx req resp w id T resp1 w1
                Hprov) as (new & -> & Hget & _).
    destruct (provision_proceeds _ _ _ _ _ _ _ _ _ _ Hprov) as [_ [b ->]].
    eexists (new ++ [_]). rewrite <- app_assoc. split; [done|].
    apply Forall_app. split.
    + eapply Forall_impl; [exact Hget|]. intros c [Hm _] [Hp _]. congruence.
    + apply Forall_singleton.
      intros [_ [id' Hid]]. by apply create_is_no_delete in Hid.
Qed.

(** C1, on the code. The plan of the README with the default timeout, a
    remote that creates [i-1] and shows it pending for good: [Create]
    fetches the status 239 times, reports the timeout after sixty minutes
    and returns; in all its 240 requests there is no [DeleteInstance]. The
    change log of release 0.1.3 says the instance is deleted first. *)
Theorem timeout_leaves_instance_behind :
  let run := terraformApply 300 (statuses [] "pending") CaseDone Background
                            noTimeouts in
  run.1 = Some (Returns
            (mkResponse
               [mkDiagnostic SeverityError "Instance not ready"
                  ("timed out waiting for i-1 to become active: "
                   +:+ "context deadline exceeded")]
               None))
  ∧ now run.2 = 3600 * Second
  ∧ length (calls run.2) = 240%nat
  ∧ deletions "i-1" run.2 = [].
Proof. vm_compute. done. Qed.

(** The text of an error of the client is none of the texts of the errors
    the loop itself returns. *)
Lemma told_answer r expect m e id :
  answer r expect = (m, Some e) -> told id (Error e) = FetchError.
Proof.
  unfold answer. destruct r as [e0|e0|e0|code text decoded].
  1-3: by intros [= _ <-].
  repeat case_match; by intros [= _ <-].
Qed.

Lemma told_failed id :
  told id ("instance " +:+ id +:+ " is in error state") = ProvisioningFailed.
Proof.
  unfold told.
  change (String.eqb ("instance " +:+ id +:+ " is in error state")
                     "context deadline exceeded") with false.
  change (String.eqb ("instance " +:+ id +:+ " is in error state")
                     "context canceled") with false.
  by rewrite String.eqb_refl.
Qed.

(** [ctx.Err()] is the sentinel of what closed the context. *)
Lemma Err_closedBy ctx t e :
  Err ctx t = Some e ->
  (closedBy ctx = Some TimedOut ∧ e = DeadlineExceeded)
  ∨ (closedBy ctx = Some Cancelled ∧ e = Canceled).
Proof.
  unfold Err, doneAt, closedBy.
  destruct (cancelAt ctx), (deadline ctx); repeat case_match;
    intros; simplify_eq; auto.
Qed.

(** A round that returns, by how it ends: the error it returns, what the
    text of the error tells, and [nil] when the round ends in no error. *)
Lemma iteration_ending env ctx c name id tk w r w' :
  iteration env ctx c name id tk w = Return r w' ->
  match ending env ctx tk w with
  | None => r = None
  | Some o =>
      ∃ err, r = Some err
        ∧ told id (Error err) = o
        ∧ match o with
          | TimedOut => err = DeadlineExceeded
          | Cancelled => err = Canceled
          | ProvisioningFailed =>
              err = errorString ("instance " +:+ id +:+ " is in error state")
          | FetchError =>
              ∃ call, calls w' = call :: calls w
                ∧ (answer (reply (remote env (length (calls w)))) true).2
                  = Some err
          end
  end.
Proof.
  unfold ending. pose proof (select_calls env ctx tk w) as Hsc.
  destruct (select env ctx tk w) as [cs w1] eqn:Hsel. cbn [snd] in Hsc.
  destruct cs.
  - unfold iteration. rewrite Hsel. intros [= <- <-].
    destruct (select_done_err _ _ _ _ _ Hsel) as [e He]. rewrite He.
    destruct (Err_closedBy _ _ _ He) as [[-> ->]|[-> ->]];
      eexists; split; done.
  - rewrite (iteration_tick _ _ _ _ _ _ _ _ Hsel). cbv zeta. rewrite Hsc.
    unfold observed.
    destruct (answer (reply (remote env (length (calls w)))) true)
      as [info [e|]] eqn:Hans.
    + intros [= <- <-]. exists e. split; [done|].
      split; [by eapply told_answer|]. by eexists.
    + cbn [fst]. destruct (String.eqb _ "active") eqn:Ha.
      * intros [= <- <-]. apply String.eqb_eq in Ha. by rewrite Ha.
      * destruct (String.eqb _ "error"); [|done]. intros [= <- <-].
        eexists. split; [done|]. split; [apply told_failed|done].
Qed.

(** The loop returns what its last round returns; with no last round
    within the fuel it has not returned. *)
Lemma lastRound_spec fuel : ∀ env ctx c name id tk w,
  match lastRound fuel env ctx c name id tk w with
  | Some (tk0, w0) =>
      ∃ r w', iteration env ctx c name id tk0 w0 = Return r w'
        ∧ pollLoop fuel env ctx c name id tk w = (Some r, w')
        ∧ (length (calls w) <= length (calls w0))%nat
  | None => (pollLoop fuel env ctx c name id tk w).1 = None
  end.
Proof.
  induction fuel as [|fuel IH]; intros env ctx c name id tk w; [done|].
  cbn [lastRound pollLoop].
  destruct (iteration env ctx c name id tk w) as [r w'|tk' w'] eqn:Hit.
  - by eexists _, _.
  - specialize (IH env ctx c name id tk' w').
    destruct (lastRound fuel env ctx c name id tk' w') as [[tk0 w0]|];
      [|done].
    destruct IH as (r & w2 & Hret & Hloop & Hlen). exists r, w2.
    split; [done|]. split; [done|].
    apply iteration_continues in Hit. lia.
Qed.

(** C2, as the code has it. Once the instance exists, take a poll session
    of [Create] that ends in one of the four error outcomes: a failed
    fetch, a snapshot with the status [error], the deadline, a
    cancellation. [pollInstanceStatus] then returns a non-nil error: the
    client's own error of the failed fetch, the plain error that names the
    instance, [context.DeadlineExceeded], [context.Canceled]. The text of
    that error tells the outcome. [Create] reports each of them in one and
    the same way, as the error diagnostic [Instance not ready] whose
    detail ends in that text. *)
Theorem poll_errors_reported_alike
    P fuel env r ctx req resp w id T resp1 w1 o :
  provision P env r req resp w = inr (id, T, resp1, w1) ->
  let ctx' := WithTimeout ctx (now w1) T in
  let name := ValueString (Name (create_Plan req)) in
  sessionEnd fuel env ctx' (client r) name id (15 * Second) w1 = Some o ->
  ∃ err w2,
    pollInstanceStatus fuel env ctx' (client r) name id (15 * Second) w1
    = (Some (Returns (Some err)), w2)
    ∧ match o with
      | TimedOut => err = DeadlineExceeded
      | Cancelled => err = Canceled
      | ProvisioningFailed =>
          err = errorString ("instance " +:+ id +:+ " is in error state")
      | FetchError =>
          ∃ call rest,
            calls w2 = call :: rest
            ∧ (length (calls w1) <= length rest)%nat
            ∧ (answer (reply (remote env (length rest))) true).2 = Some err
      end
    ∧ told id (Error err) = o
    ∧ Create P fuel env r ctx req resp w
      = (Some (Returns (addError resp1 "Instance not ready"
                          ("timed out waiting for " +:+ id
                           +:+ " to become active: " +:+ Error err))),
         w2).
Proof.
  intros Hprov. cbv zeta. unfold Create. rewrite Hprov.
  unfold sessionEnd, pollInstanceStatus, NewTicker.
  change (15 * Second <=? 0) with false. cbv beta iota.
  set (ctx' := WithTimeout ctx (now w1) T).
  set (tk := {| period := 15 * Second; next := now w1 + 15 * Second |}).
  set (name := ValueString (Name (create_Plan req))).
  pose proof (lastRound_spec fuel env ctx' (client r) name id tk w1) as Hlast.
  destruct (lastRound fuel env ctx' (client r) name id tk w1) as [[tk0 w0]|];
    [|done].
  destruct Hlast as (res & w2 & Hit & Hloop & Hlen). rewrite Hloop.
  pose proof (iteration_ending _ _ _ _ _ _ _ _ _ Hit) as Hend.
  intros Ho. rewrite Ho in Hend.
  destruct Hend as (err & -> & Htold & Hby). exists err, w2.
  split; [done|]. split; [|done].
  destruct o; try done. destruct Hby as (call & Hc & Ha).
  by exists call, (calls w0).
Qed.

(** C2 on four runs of [Create] for the instance [i-1] with a timeout of
    thirty seconds: the instance pending for good and the tick at the
    deadline not taken; the same with a cancellation after twenty seconds;
    a first snapshot with the status [error]; a first fetch refused with
    status 500. *)
Lemma poll_errors_reported_alike_witness :
  let run info p ctx :=
    Create parseDuration 5 (mkEnv (behindCreate info) (always p)) theResource
           ctx (gpuRequest halfMinute) noResponse (start 0) in
  let reported err w2 :=
    (Some (Returns (addError noResponse "Instance not ready"
                      ("timed out waiting for " +:+ "i-1"
                       +:+ " to become active: " +:+ Error err))), w2) in
  (∃ err w2, err = DeadlineExceeded
     ∧ told "i-1" (Error err) = TimedOut
     ∧ run (statuses [] "pending") CaseDone Background = reported err w2)
  ∧ (∃ err w2, err = Canceled
       ∧ told "i-1" (Error err) = Cancelled
       ∧ run (statuses [] "pending") CaseTick
             (mkContext None (Some (20 * Second))) = reported err w2)
  ∧ (∃ err w2, err = errorString "instance i-1 is in error state"
       ∧ told "i-1" (Error err) = ProvisioningFailed
       ∧ run (statuses [] "error") CaseTick Background = reported err w2)
  ∧ (∃ err w2,
       err = errorString "API request failed with status 500: internal error"
       ∧ told "i-1" (Error err) = FetchError
       ∧ run (λ _, refused) CaseTick Background = reported err w2).
Proof.
  pose (w1 := mkWorld 0 [mkCall 0 "POST" instanceCreateRoute
                           (Some (createRequestBody
                                    (gpuPlan "gpu" halfMinute)).1)] 0 []).
  pose (thm info p ctx :=
          poll_errors_reported_alike parseDuration 5
            (mkEnv (behindCreate info) (always p)) theResource ctx
            (gpuRequest halfMinute) noResponse (start 0) "i-1" (30 * Second)
            noResponse w1).
  cbv zeta. split; [|split; [|split]].
  - destruct (thm (statuses [] "pending") CaseDone Background TimedOut
                eq_refl eq_refl) as (err & w2 & _ & Herr & Htold & Hrun).
    by exists err, w2.
  - destruct (thm (statuses [] "pending") CaseTick
                (mkContext None (Some (20 * Second))) Cancelled
                eq_refl eq_refl) as (err & w2 & _ & Herr & Htold & Hrun).
    by exists err, w2.
  - destruct (thm (statuses [] "error") CaseTick Background ProvisioningFailed
                eq_refl eq_refl) as (err & w2 & _ & Herr & Htold & Hrun).
    by exists err, w2.
  - destruct (thm (λ _, refused) CaseTick Background FetchError
                eq_refl eq_refl) as (err & w2 & Hpoll & _ & Htold & Hrun).
    exists err, w2. split; [|done].
    vm_compute in Hpoll. by injection Hpoll as <- _.
Defined.

(** C2 as stated fails. A timeout, a cancellation, a failed provisioning and
    a failed fetch leave [Create] with the same diagnostic but for its
    detail text; and the values [pollInstanceStatus] returns for a failed
    provisioning and for a fetch refused with status 500 are two errors of
    the one dynamic type, told apart by their text alone. *)
Lemma outcomes_differ_in_text_only_counterexample :
  let timedOut := terraformApply 5 (statuses [] "pending") CaseDone
                                 Background halfMinute in
  let cancelled := terraformApply 5 (statuses [] "pending") CaseTick
                     (mkContext None (Some (20 * Second))) halfMinute in
  let failed := terraformApply 5 (statuses [] "error") CaseTick
                               Background halfMinute in
  let unreached := terraformApply 5 (λ _, refused) CaseTick
                                  Background halfMinute in
  let poll info := (pollInstanceStatus 5 (mkEnv info (always CaseTick))
                      (within (30 * Second)) theClient "gpu" "i-1"
                      (15 * Second) (start 0)).1 in
  (headline timedOut = [(SeverityError, "Instance not ready")]
   ∧ headline cancelled = headline timedOut
   ∧ headline failed = headline timedOut
   ∧ headline unreached = headline timedOut
   ∧ details timedOut ≠ details cancelled
   ∧ details failed ≠ details unreached)
  ∧ (∃ e1 e2, poll (statuses [] "error") = Some (Returns (Some e1))
              ∧ poll (λ _, refused) = Some (Returns (Some e2))
              ∧ e1 ≠ e2 ∧ TypeOf e1 = TypeOf e2).
Proof.
  split.
  - vm_compute. repeat split; discriminate.
  - eexists _, _. split; [vm_compute; reflexivity|].
    split; [vm_compute; reflexivity|]. split; [discriminate|reflexivity].
Qed.

(** C3, as the code has it. The create timeout is what the plan's
    [timeouts] block asks for, sixty minutes (3600 s) when it asks for
    nothing; the interval is fifteen seconds whatever the plan says. With
    the instance pending for good and every fetch back within the
    interval, [Create] reports the timeout; no fetch starts after the
    timeout has passed since the create call returned, and the fetches are
    as many as the fifteen-second ticks before that instant, give or take
    the tick on it. *)
Theorem timeout_configured_interval_fixed
    P m fuel env r req resp w id T resp1 w1 :
  provision P env r req resp w = inr (id, T, resp1, w1) ->
  (∀ n, (length (calls w1) <= n)%nat ->
        provisioning (remote env n) = true
        ∧ Z.of_N (elapsed (remote env n)) < 15 * Second) ->
  T < 15 * Second + Z.of_nat m * (15 * Second) ->
  (m < fuel)%nat ->
  T = configured P (Timeouts (create_Plan req))
  ∧ configured P (timeouts.mkValue None) = 3600 * Second
  ∧ ∃ w' new,
      Create P fuel env r Background req resp w
      = (Some (Returns (addError resp1 "Instance not ready"
                          ("timed out waiting for " +:+ id
                           +:+ " to become active: "
                           +:+ "context deadline exceeded"))), w')
      ∧ calls w' = new ++ calls w1
      ∧ Forall (λ c, at_time c <= now w1 + T) new
      ∧ T <= 15 * Second + Z.of_nat (length new) * (15 * Second)
      ∧ (new = [] ∨ Z.of_nat (length new) * (15 * Second) <= T).
Proof.
  intros Hprov Henv HT Hfuel.
  destruct (provision_proceeds _ _ _ _ _ _ _ _ _ _ Hprov) as [HTc _].
  split; [exact HTc|]. split; [reflexivity|].
  destruct (Deadline.poll_until_deadline m fuel env
              (WithTimeout Background (now w1) T) (client r)
              (ValueString (Name (create_Plan req))) id (15 * Second) w1
              (now w1 + T))
    as (w' & new & Hpoll & Hcalls & Hall & Hup & Hlow);
    try done; try lia.
  exists w', new. split.
  - unfold Create. by rewrite Hprov, Hpoll.
  - repeat split; auto; [lia|]. destruct Hlow as [->|Hlow]; [by left|right; lia].
Qed.

(** C3 on a plan that sets [timeouts { create = 30s }]. *)
Lemma timeout_configured_interval_fixed_witness :
  let env := mkEnv (behindCreate (statuses [] "pending")) (always CaseTick) in
  let w1 := mkWorld 0 [mkCall 0 "POST" instanceCreateRoute
                         (Some (createRequestBody (gpuPlan "gpu" halfMinute)).1)]
                    0 [] in
  30 * Second = configured parseDuration (Timeouts (gpuPlan "gpu" halfMinute))
  ∧ configured parseDuration (timeouts.mkValue None) = 3600 * Second
  ∧ ∃ w' new,
      Create parseDuration 3 env theResource Background
             (gpuRequest halfMinute) noResponse (start 0)
      = (Some (Returns (addError noResponse "Instance not ready"
                          ("timed out waiting for " +:+ "i-1"
                           +:+ " to become active: "
                           +:+ "context deadline exceeded"))), w')
      ∧ calls w' = new ++ calls w1
      ∧ Forall (λ c, at_time c <= now w1 + 30 * Second) new
      ∧ 30 * Second <= 15 * Second + Z.of_nat (length new) * (15 * Second)
      ∧ (new = [] ∨ Z.of_nat (length new) * (15 * Second) <= 30 * Second).
Proof.
  intros env w1.
  apply (timeout_configured_interval_fixed parseDuration 2 3 env theResource
           (gpuRequest halfMinute) noResponse (start 0) "i-1" (30 * Second)
           noResponse w1).
  - vm_compute. reflexivity.
  - intros n Hn. destruct n as [|n]; [cbn in Hn; lia|].
    split; [by destruct n|]. vm_compute. reflexivity.
  - vm_compute. reflexivity.
  - lia.
Defined.

(** C3 as stated fails for the interval: there is no plan, no timeouts
    block and no remote behaviour for which the first status fetch of
    [Create] starts at another instant than fifteen seconds after the
    create call returned. *)
Lemma interval_override_counterexample :
  ¬ ∃ P fuel env r ctx req resp w id T resp1 w1 first rest,
      provision P env r req resp w = inr (id, T, resp1, w1)
      ∧ calls (Create P fuel env r ctx req resp w).2
        = rest ++ first :: calls w1
      ∧ at_time first ≠ now w1 + 15 * Second.
Proof.
  intros (P & fuel & env & r & ctx & req & resp & w & id & T & resp1 & w1
          & first & rest & Hprov & Hcalls & Hne).
  destruct (create_after_provision P fuel env r ctx req resp w id T resp1 w1
              Hprov) as (new & Hnew & _ & Hlast).
  rewrite Hnew in Hcalls.
  change (rest ++ first :: calls w1) with (rest ++ [first] ++ calls w1)
    in Hcalls.
  rewrite app_assoc in Hcalls. apply app_inv_tail in Hcalls. subst new.
  destruct Hlast as [Hnil|Hlast].
  - by destruct rest.
  - rewrite last_snoc in Hlast. injection Hlast as ->. by apply Hne.
Qed.

End Creating.

(** ** Diagnostics *)

Module Diags.

Import tfsdk.

Lemma elem_of_Append (diags new : Diagnostics) d :
  d ∈ Append diags new ↔ d ∈ diags ∨ d ∈ new.
Proof.
  unfold Append. revert diags.
  induction new as [|x new IH]; intros diags; cbn [fold_left].
  - rewrite elem_of_nil. tauto.
  - rewrite IH, elem_of_cons. case_bool_decide as Hx.
    + split; [tauto|]. intros [?|[->|?]]; auto.
    + rewrite elem_of_app, list_elem_of_singleton. tauto.
Qed.

Lemma HasError_true (diags : Diagnostics) :
  HasError diags = true ↔ ∃ d, d ∈ diags ∧ severity d = SeverityError.
Proof.
  unfold HasError. rewrite existsb_exists. split.
  - intros (d & Hin%list_elem_of_In & Hd%bool_decide_eq_true). eauto.
  - intros (d & Hin & Hd). exists d. rewrite <- list_elem_of_In.
    split; [done|]. by apply bool_decide_eq_true.
Qed.

Lemma HasError_Append diags new :
  HasError (Append diags new) = HasError diags || HasError new.
Proof.
  apply eq_true_iff_eq. rewrite orb_true_iff, !HasError_true. split.
  - intros (d & [Hin|Hin]%elem_of_Append & Hd); [left|right]; eauto.
  - intros [(d & Hin & Hd)|(d & Hin & Hd)]; exists d;
      rewrite elem_of_Append; auto.
Qed.

Lemma HasError_AddError diags summary detail :
  HasError (AddError diags summary detail) = true.
Proof.
  unfold AddError. rewrite HasError_Append. apply orb_true_iff. right.
  done.
Qed.

End Diags.

(** ** The client *)

Module ClientFacts.

Import provider_shadeform provider_shadeform_rest.

Lemma append_assoc (a b c : string) : (a +:+ b) +:+ c = a +:+ (b +:+ c).
Proof.
  induction a as [|x a IH]; [done|].
  change (String x ((a +:+ b) +:+ c) = String x (a +:+ (b +:+ c))).
  by rewrite IH.
Qed.

Lemma rangeParams_app entries : ∀ query,
  rangeParams entries query false
  = query +:+ String.concat ""
                (map (λ '(key, value), "&" +:+ key +:+ "=" +:+ value) entries).
Proof.
  induction entries as [|[key value] entries IH]; intros query;
    cbn [rangeParams map negb].
  - cbn. induction query as [|x q IHq]; [done|].
    change (String x q = String x (q +:+ "")). by rewrite <- IHq.
  - rewrite IH. rewrite !append_assoc.
    destruct entries as [|e entries]; cbn [map String.concat].
    + f_equal.
      assert (H : ∀ z : string, z +:+ "" = z).
      { induction z as [|x z IHz]; [done|].
        change (String x (z +:+ "") = String x z). by rewrite IHz. }
      by rewrite H.
    + f_equal. by rewrite !append_assoc.
Qed.

(** X2. The query string of [GetInstanceTypes] is empty for no parameter;
    otherwise it is a question mark followed by the [key=value] pairs in
    the order the [range] visits them, an ampersand before each pair but
    the first. Keys and values are not escaped. *)
Theorem typesQuery_joins (params : list (string * string)) :
  typesQuery params
  = match params with
    | [] => ""
    | (key, value) :: rest =>
        "?" +:+ key +:+ "=" +:+ value
        +:+ String.concat ""
              (map (λ '(key, value), "&" +:+ key +:+ "=" +:+ value) rest)
    end.
Proof.
  destruct params as [|[key value] rest]; [done|].
  cbn [typesQuery rangeParams negb]. rewrite rangeParams_app.
  by rewrite !append_assoc.
Qed.

End ClientFacts.

(** ** More about the readiness loop *)

Module LoopFacts.

Import context time provider_shadeform instance tfsdk Spec Rounds Scenarios.
Import Creating.

Lemma select_now env ctx tk w : now w <= now (select env ctx tk w).2.
Proof.
  unfold select. destruct (doneAt ctx) as [[d e]|]; cbn [snd now]; [|lia].
  repeat case_match; simplify_eq; cbn [snd now]; lia.
Qed.

Lemma pollLoop_nil fuel : ∀ env ctx c name id tk w w',
  pollLoop fuel env ctx c name id tk w = (Some None, w') ->
  ∃ t rest,
    calls w' = mkCall t "GET" (instanceInfoRoute id) None :: rest
    ∧ (length (calls w) <= length rest)%nat
    ∧ observed (remote env (length rest)) = Some "active".
Proof.
  induction fuel as [|fuel IH]; intros env ctx c name id tk w w' Hrun;
    [done|].
  cbn [pollLoop] in Hrun.
  destruct (select env ctx tk w) as [cs w1] eqn:Hsel. destruct cs.
  - unfold iteration in Hrun. rewrite Hsel in Hrun.
    destruct (select_done_err _ _ _ _ _ Hsel) as [e He].
    rewrite He in Hrun. done.
  - rewrite (iteration_tick _ _ _ _ _ _ _ _ Hsel) in Hrun. cbv zeta in Hrun.
    apply select_tick_world in Hsel. subst w1. cbn [now calls selects debug] in Hrun.
    unfold observed.
    destruct (answer (reply (remote env (length (calls w)))) true)
      as [info [e|]] eqn:Hans; [done|].
    destruct (String.eqb _ "active") eqn:Ha.
    + injection Hrun as <-. cbn [tflog_Debug calls].
      eexists _, _. split; [done|]. split; [done|].
      rewrite Hans. by apply String.eqb_eq in Ha as ->.
    + destruct (String.eqb _ "error"); [done|].
      destruct (IH _ _ _ _ _ _ _ _ Hrun) as (t & rest & Hc & Hlen & Hobs).
      exists t, rest. split; [done|]. split; [|done].
      cbn [tflog_Debug calls length] in Hlen. lia.
Qed.

(** X3. [pollInstanceStatus] returns [nil] only when the last thing it did
    was a status fetch of this instance whose snapshot said [active]. *)
Theorem nil_only_after_active fuel env ctx c name id interval w w' :
  pollInstanceStatus fuel env ctx c name id interval w
  = (Some (Returns None), w') ->
  ∃ t rest,
    calls w' = mkCall t "GET" (instanceInfoRoute id) None :: rest
    ∧ (length (calls w) <= length rest)%nat
    ∧ observed (remote env (length rest)) = Some "active".
Proof.
  unfold pollInstanceStatus. destruct (NewTicker (now w) interval) as [tk|];
    [|done].
  destruct (pollLoop fuel env ctx c name id tk w) as [[err|] w1] eqn:Hloop;
    [|done].
  intros [= -> ->]. by eapply pollLoop_nil.
Qed.

Lemma nil_only_after_active_witness :
  ∃ t rest,
    calls (pollInstanceStatus 3 (mkEnv (statuses ["pending"; "pending"] "active")
                                       (always CaseTick))
             (within 5) theClient "gpu" "i-1" 1 (start 0)).2
    = mkCall t "GET" (instanceInfoRoute "i-1") None :: rest
    ∧ (0 <= length rest)%nat
    ∧ observed (statuses ["pending"; "pending"] "active" (length rest))
      = Some "active".
Proof.
  apply (nil_only_after_active 3
           (mkEnv (statuses ["pending"; "pending"] "active") (always CaseTick))
           (within 5) theClient "gpu" "i-1" 1 (start 0)).
  vm_compute. reflexivity.
Defined.

Lemma pollLoop_sequence fuel : ∀ env ctx c name id tk w,
  0 < period tk ->
  ∃ new,
    calls (pollLoop fuel env ctx c name id tk w).2 = new ++ calls w
    ∧ now w <= now (pollLoop fuel env ctx c name id tk w).2
    ∧ Forall (λ call, Z.max (now w) (next tk) <= at_time call
                      <= now (pollLoop fuel env ctx c name id tk w).2) new
    ∧ ∀ i c1 c2,
        reverse new !! i = Some c1 -> reverse new !! S i = Some c2 ->
        at_time c1 + Z.of_N (elapsed (remote env (length (calls w) + i)))
        <= at_time c2
        ∧ at_time c1 < at_time c2.
Proof.
  induction fuel as [|fuel IH]; intros env ctx c name id tk w Hp.
  - exists []. cbn. split; [done|]. split; [lia|]. split; [by constructor|].
    intros i c1 c2 Hi. done.
  - cbn [pollLoop].
    destruct (select env ctx tk w) as [cs w1] eqn:Hsel. destruct cs.
    + unfold iteration. rewrite Hsel. cbn [snd].
      pose proof (select_calls env ctx tk w) as Hsc.
      pose proof (select_now env ctx tk w) as Hsn.
      rewrite Hsel in Hsc, Hsn. cbn [snd] in Hsc, Hsn.
      exists []. rewrite Hsc. split; [done|]. split; [done|].
      split; [by constructor|]. intros i c1 c2 Hi. done.
    + rewrite (iteration_tick _ _ _ _ _ _ _ _ Hsel). cbv zeta.
      apply select_tick_world in Hsel. subst w1. cbn [now calls selects debug].
      set (T := Z.max (now w) (next tk)).
      set (el := elapsed (remote env (length (calls w)))).
      set (call := mkCall T "GET" (instanceInfoRoute id) None).
      pose proof (took_nonneg (remote env (length (calls w)))) as Htook.
      assert (Hone : ∀ w', calls w' = call :: calls w ->
                T <= now w' ->
                ∃ new, calls w' = new ++ calls w ∧ now w <= now w'
                  ∧ Forall (λ x, T <= at_time x <= now w') new
                  ∧ ∀ i c1 c2,
                      reverse new !! i = Some c1 ->
                      reverse new !! S i = Some c2 ->
                      at_time c1
                      + Z.of_N (elapsed (remote env (length (calls w) + i)))
                      <= at_time c2 ∧ at_time c1 < at_time c2).
      { intros w' Hc Hn. exists [call]. rewrite Hc.
        split; [done|]. split; [unfold T in *; lia|]. split.
        - apply Forall_singleton. cbn. lia.
        - intros i c1 c2 _ Hi. by destruct i. }
      destruct (answer _ true) as [info [e|]] eqn:Hans; cbn [snd];
        [apply Hone; [done|cbn [now]; lia]|].
      apply took_answer in Hans. rewrite Hans in *. fold el in Htook |- *.
      destruct (String.eqb _ "active"); cbn [snd];
        [apply Hone; [done|cbn [tflog_Debug now]; lia]|].
      destruct (String.eqb _ "error"); cbn [snd];
        [apply Hone; [done|cbn [tflog_Debug now]; lia]|].
      clear Hone.
      match goal with
      | |- context [pollLoop fuel env ctx c name id ?tk' ?w3] =>
          set (tk1 := tk') in *; set (w1 := w3) in *
      end.
      destruct (IH env ctx c name id tk1 w1 Hp)
        as (new & Hcalls & Hnow & Hall & Hseq).
      pose proof (received_next tk T Hp) as [Hr1 Hr2]. fold tk1 in Hr1, Hr2.
      assert (Hw1 : now w1 = T + Z.of_N el) by done.
      assert (Hc1 : calls w1 = call :: calls w) by done.
      exists (new ++ [call]). rewrite Hcalls, Hc1, <- app_assoc.
      split; [done|]. split; [unfold T in *; lia|]. split.
      * apply Forall_app. split.
        -- eapply Forall_impl; [exact Hall|]. cbn beta. intros x Hx. lia.
        -- apply Forall_singleton. cbn. lia.
      * intros i c1 c2. rewrite reverse_snoc. destruct i as [|i]; cbn.
        -- intros [= <-] Hc2. cbn. rewrite Nat.add_0_r. fold el.
           assert (Hin : c2 ∈ new).
           { apply elem_of_reverse. by eapply list_elem_of_lookup_2. }
           rewrite Forall_forall in Hall. specialize (Hall _ Hin).
           cbn beta in Hall. lia.
        -- intros H1 H2. specialize (Hseq i c1 c2 H1 H2).
           rewrite Hc1 in Hseq. cbn [length] in Hseq.
           replace (length (calls w) + S i)%nat
             with (S (length (calls w)) + i)%nat by lia.
           exact Hseq.
Qed.

(** X4. All a poll session asks of the API are status fetches of its
    instance, one after the other: each is a GET of the info route of [id]
    without a body; it starts after the session began, at a later instant
    than the one before it and not before the one before it has returned.
    The clock is never turned back. *)
Theorem fetches_in_sequence fuel env ctx c name id interval w :
  let w' := (pollInstanceStatus fuel env ctx c name id interval w).2 in
  ∃ new,
    calls w' = new ++ calls w
    ∧ now w <= now w'
    ∧ Forall (λ call, method call = "GET"
                      ∧ path call = instanceInfoRoute id
                      ∧ body call = None
                      ∧ now w < at_time call <= now w') new
    ∧ ∀ i c1 c2,
        reverse new !! i = Some c1 -> reverse new !! S i = Some c2 ->
        at_time c1 + Z.of_N (elapsed (remote env (length (calls w) + i)))
        <= at_time c2
        ∧ at_time c1 < at_time c2.
Proof.
  cbv zeta. unfold pollInstanceStatus, NewTicker.
  destruct (Z.leb_spec interval 0) as [Hle|Hlt].
  - exists []. cbn. split; [done|]. split; [lia|]. split; [by constructor|].
    intros i c1 c2 Hi. done.
  - set (tk := {| period := interval; next := now w + interval |}).
    destruct (pollLoop_sequence fuel env ctx c name id tk w Hlt)
      as (new & Hcalls & Hnow & Hall & Hseq).
    destruct (pollLoop_fetches fuel env ctx c name id tk w)
      as (new' & Hcalls' & Hget & _).
    assert (new' = new) as ->.
    { rewrite Hcalls in Hcalls'. by apply app_inv_tail in Hcalls'. }
    destruct (pollLoop fuel env ctx c name id tk w) as [[err|] w1];
      cbn [snd] in *; exists new; (split; [done|]); (split; [done|]);
      (split; [|done]); rewrite Forall_forall in Hall, Hget |- *;
      intros x Hx; specialize (Hall x Hx); specialize (Hget x Hx);
      destruct Hget as (? & ? & ? & _); cbn [next tk] in Hall;
      (split; [done|]); (split; [done|]); (split; [done|]); lia.
Qed.

(** X5. A context that is already done when the loop starts makes it
    return the context's error at once, without a single status fetch. *)
Theorem done_context_fetches_nothing fuel env ctx c name id interval w d e :
  0 < interval ->
  doneAt ctx = Some (d, e) -> d <= now w ->
  pollInstanceStatus (S fuel) env ctx c name id interval w
  = (Some (Returns (Some e)),
     {| now := now w; calls := calls w; selects := S (selects w);
        debug := debug w |}).
Proof.
  intros Hi Hdone Hd. unfold pollInstanceStatus, NewTicker.
  destruct (Z.leb_spec interval 0); [lia|]. cbn [pollLoop]. unfold iteration.
  rewrite (select_done env ctx _ w d e Hdone) by (cbn [next]; lia).
  cbn [now]. rewrite (Err_done ctx d e) by (done || lia).
  by replace (Z.max (now w) d) with (now w) by lia.
Qed.

Lemma done_context_fetches_nothing_witness :
  pollInstanceStatus 1 (mkEnv (statuses [] "active") (always CaseTick))
                     (mkContext None (Some 3)) theClient "gpu" "i-1" 15
                     (mkWorld 7 [] 0 [])
  = (Some (Returns (Some Canceled)), mkWorld 7 [] 1 []).
Proof.
  apply (done_context_fetches_nothing 0
           (mkEnv (statuses [] "active") (always CaseTick))
           (mkContext None (Some 3)) theClient "gpu" "i-1" 15
           (mkWorld 7 [] 0 []) 3 Canceled).
  - lia.
  - reflexivity.
  - vm_compute. discriminate.
Defined.

End LoopFacts.

(** ** More about [Create] *)

Module CreateFacts.

Import context time provider_shadeform instance tfsdk Spec Rounds Scenarios.
Import Diags Creating.

(** X6. The body of the create request always has the five required
    attributes, with the plan's values; it has [os], [template_id] and
    [ssh_key_id] exactly when the plan gives them a known value, and
    [volume_ids] exactly when the plan's list is known; it has no other
    key. *)
Theorem create_body_keys (plan : InstanceResourceModel) :
  let body := (createRequestBody plan).1 in
  dom body
  = {[ "cloud"; "region"; "shade_instance_type"; "shade_cloud"; "name" ]}
    ∪ (if present (Os plan) then {[ "os" ]} else ∅)
    ∪ (if present (TemplateId plan) then {[ "template_id" ]} else ∅)
    ∪ (if present (SshKeyId plan) then {[ "ssh_key_id" ]} else ∅)
    ∪ (match VolumeIds plan with
       | ListValue _ => {[ "volume_ids" ]}
       | _ => ∅
       end)
  ∧ body !! "cloud" = Some (VString (ValueString (Cloud plan)))
  ∧ body !! "region" = Some (VString (ValueString (Region plan)))
  ∧ body !! "shade_instance_type"
    = Some (VString (ValueString (ShadeInstanceType plan)))
  ∧ body !! "shade_cloud" = Some (VBool (ValueBool (ShadeCloud plan)))
  ∧ body !! "name" = Some (VString (ValueString (Name plan))).
Proof.
  cbv zeta. unfold createRequestBody.
  destruct (present (Os plan)), (present (TemplateId plan)),
    (present (SshKeyId plan)), (VolumeIds plan) as [| |elems];
    cbn [ListIsNull ListIsUnknown negb andb Elements fst];
    try destruct (ElementsAs elems) as [volumeIds diags]; cbn [fst];
    (split; [rewrite !dom_insert_L, dom_empty_L; set_solver|]);
    repeat split; by simplify_map_eq.
Qed.

Lemma provision_inr P env r req resp w id T resp1 w1 :
  provision P env r req resp w = inr (id, T, resp1, w1) ->
  HasError (resp_Diagnostics resp1) = false
  ∧ resp_State resp1 = resp_State resp
  ∧ ∃ result,
      answer (reply (remote env (length (calls w)))) true = (result, None)
      ∧ as_string (result !! "id") = (id, true).
Proof.
  unfold provision. repeat case_match; try done.
  intros; simplify_eq.
  match goal with H : CreateInstance _ _ _ _ = _ |- _ =>
    unfold CreateInstance, makeRequest in H; injection H as Hans _ end.
  split; [done|]. split; [done|]. eexists. split; [exact Hans|].
  match goal with H : negb ?b = false |- _ => destruct b; [|done] end.
  done.
Qed.

Lemma provision_inl P env r req resp w resp1 w1 :
  provision P env r req resp w = inl (resp1, w1) ->
  HasError (resp_Diagnostics resp1) = true
  ∧ resp_State resp1 = resp_State resp.
Proof.
  unfold provision. repeat case_match; try done; intros; simplify_eq;
    cbn [addError appendDiags resp_Diagnostics resp_State];
    (split; [|done]); try done; apply HasError_AddError.
Qed.

(** X7. [Create] either reports an error and leaves the state as it was,
    or reports none and sets the state; the state it sets has the id the
    create call returned, the plan's timeouts, the plan's [ssh_key_id]
    when the plan gives one, and never an [ssh_port]: the port of the API
    response, a JSON number, is no [int64]. *)
Theorem create_sets_state_iff_no_error
    P fuel env r ctx req resp w resp' w' :
  Create P fuel env r ctx req resp w = (Some (Returns resp'), w') ->
  if HasError (resp_Diagnostics resp') then resp_State resp' = resp_State resp
  else
    ∃ m id result,
      resp_State resp' = Some m
      ∧ answer (reply (remote env (length (calls w)))) true = (result, None)
      ∧ as_string (result !! "id") = (id, true)
      ∧ Id m = StringValue id
      ∧ Timeouts m = Timeouts (create_Plan req)
      ∧ (present (SshKeyId (create_Plan req)) = true ->
         SshKeyId m = SshKeyId (create_Plan req))
      ∧ SshPort m = Int64Null.
Proof.
  unfold Create.
  destruct (provision P env r req resp w)
    as [[resp1 w1]|[[[id T] resp1] w1]] eqn:Hprov.
  - intros [= <- <-].
    destruct (provision_inl _ _ _ _ _ _ _ _ Hprov) as [-> Hst]. done.
  - destruct (provision_inr _ _ _ _ _ _ _ _ _ _ Hprov)
      as (Hok & Hst & result & Hans & Hid).
    destruct (pollInstanceStatus _ _ _ _ _ _ _ _) as [[[polled|]|] w2];
      [|done|done].
    unfold finish. destruct polled as [err|].
    + intros [= <- <-]. cbn [addError resp_Diagnostics resp_State].
      by rewrite HasError_AddError.
    + unfold GetInstance, makeRequest.
      destruct (answer (reply (remote env (length (calls w2)))) true)
        as [info [e|]]; intros [= <- <-].
      * cbn [addError resp_Diagnostics resp_State].
        by rewrite HasError_AddError.
      * cbn [setState resp_Diagnostics resp_State]. rewrite Hok.
        eexists _, id, result. split; [done|]. split; [done|].
        split; [done|]. cbn [createdModel Id Timeouts SshKeyId SshPort].
        split; [done|]. split; [done|]. split; [|done].
        by intros ->.
Qed.

Lemma create_sets_state_iff_no_error_witness :
  let run := terraformApply 5 (statuses ["pending"] "active") CaseTick
                            Background halfMinute in
  ∃ m id result,
    resp_State (mkResponse [] (Some (createdModel (gpuPlan "gpu" halfMinute)
                                       "i-1" {[ "status" := AnyString "active" ]})))
    = Some m
    ∧ answer (reply (object 0 "id" "i-1")) true = (result, None)
    ∧ as_string (result !! "id") = (id, true)
    ∧ Id m = StringValue id
    ∧ Timeouts m = halfMinute
    ∧ (present StringUnknown = true -> SshKeyId m = StringUnknown)
    ∧ SshPort m = Int64Null.
Proof.
  intros run.
  exact (create_sets_state_iff_no_error parseDuration 5
           (mkEnv (behindCreate (statuses ["pending"] "active"))
                  (always CaseTick))
           theResource Background (gpuRequest halfMinute) noResponse (start 0)
           (mkResponse [] (Some (createdModel (gpuPlan "gpu" halfMinute) "i-1"
                                   {[ "status" := AnyString "active" ]})))
           run.2 eq_refl).
Defined.

(** X8. When the create call fails, or its reply carries no string [id],
    [Create] reports an error, leaves the state as it was and asks the API
    for nothing more: no status is fetched. *)
Theorem create_stops_without_instance P fuel env r ctx req resp w :
  let first := answer (reply (remote env (length (calls w)))) true in
  first.2 ≠ None ∨ (as_string (first.1 !! "id")).2 = false ->
  ∃ resp' w',
    Create P fuel env r ctx req resp w = (Some (Returns resp'), w')
    ∧ HasError (resp_Diagnostics resp') = true
    ∧ resp_State resp' = resp_State resp
    ∧ (calls w' = calls w
       ∨ ∃ b, calls w' = mkCall (now w) "POST" instanceCreateRoute (Some b)
                         :: calls w).
Proof.
  cbv zeta. intros Hfirst. unfold Create.
  destruct (provision P env r req resp w)
    as [[resp1 w1]|[[[id T] resp1] w1]] eqn:Hprov.
  - destruct (provision_inl _ _ _ _ _ _ _ _ Hprov) as [Herr Hst].
    exists resp1, w1. split; [done|]. split; [done|]. split; [done|].
    by apply (provision_returns _ _ _ _ _ _ _ _ Hprov).
  - destruct (provision_inr _ _ _ _ _ _ _ _ _ _ Hprov)
      as (_ & _ & result & Hans & Hid).
    rewrite Hans in Hfirst. cbn [fst snd] in Hfirst. rewrite Hid in Hfirst.
    by destruct Hfirst.
Qed.

Lemma create_stops_without_instance_witness :
  ∃ resp' w',
    Create parseDuration 5 (mkEnv (λ _, refused) (always CaseTick))
           theResource Background (gpuRequest noTimeouts) noResponse (start 0)
    = (Some (Returns resp'), w')
    ∧ HasError (resp_Diagnostics resp') = true
    ∧ resp_State resp' = resp_State noResponse
    ∧ (calls w' = calls (start 0)
       ∨ ∃ b, calls w' = mkCall (now (start 0)) "POST" instanceCreateRoute
                                (Some b) :: calls (start 0)).
Proof.
  apply (create_stops_without_instance parseDuration 5
           (mkEnv (λ _, refused) (always CaseTick)) theResource Background
           (gpuRequest noTimeouts) noResponse (start 0)).
  left. vm_compute. discriminate.
Defined.

(** X9. The whole of a successful [Create], with no end set to the parent
    context: the create call returns an id, [k] status fetches show the
    instance provisioning, the next shows it [active] before the create
    timeout has passed, and the info is read once more. [Create] then
    reports no error, sets the state built from that last info and has
    made [k + 3] requests in all. *)
Theorem create_succeeds P k fuel env r req resp w id T resp1 w1 info :
  provision P env r req resp w = inr (id, T, resp1, w1) ->
  (∀ i, (i < k)%nat ->
        provisioning (remote env (length (calls w1) + i)) = true) ->
  observed (remote env (length (calls w1) + k)) = Some "active" ->
  answer (reply (remote env (length (calls w1) + S k))) true = (info, None) ->
  Z.of_nat (S k) * (15 * Second) + busy env (length (calls w1)) k < T ->
  (k < fuel)%nat ->
  ∃ w',
    Create P fuel env r Background req resp w
    = (Some (Returns (setState resp1 (createdModel (create_Plan req) id info))),
       w')
    ∧ HasError (resp_Diagnostics resp1) = false
    ∧ length (calls w') = (length (calls w) + k + 3)%nat.
Proof.
  intros Hprov Hpend Hact Hinfo HT Hfuel.
  destruct (provision_inr _ _ _ _ _ _ _ _ _ _ Hprov) as (Hok & _).
  destruct (provision_proceeds _ _ _ _ _ _ _ _ _ _ Hprov) as [_ [b Hc1]].
  destruct (Readiness.poll_reaches_terminal k fuel env
              (WithTimeout Background (now w1) T) (client r)
              (ValueString (Name (create_Plan req))) id (15 * Second) w1
              "active")
    as (w2 & new & Hpoll & Hcalls & Hlen & _); try done.
  { unfold openAfter. cbn. lia. }
  cbn [String.eqb Ascii.eqb Bool.eqb] in Hpoll.
  unfold Create. rewrite Hprov, Hpoll. unfold finish, GetInstance, makeRequest.
  assert (Hl2 : length (calls w2) = (length (calls w1) + S k)%nat).
  { rewrite Hcalls, length_app. lia. }
  rewrite Hl2, Hinfo. eexists. split; [reflexivity|]. split; [done|].
  cbn [calls length]. rewrite Hl2, Hc1. cbn [length]. lia.
Qed.

Lemma create_succeeds_witness :
  let env := mkEnv (behindCreate (statuses ["pending"] "active"))
                   (always CaseTick) in
  let w1 := mkWorld 0 [mkCall 0 "POST" instanceCreateRoute
                         (Some (createRequestBody (gpuPlan "gpu" noTimeouts)).1)]
                    0 [] in
  ∃ w',
    Create parseDuration 2 env theResource Background (gpuRequest noTimeouts)
           noResponse (start 0)
    = (Some (Returns (setState noResponse
                        (createdModel (gpuPlan "gpu" noTimeouts) "i-1"
                                      {[ "status" := AnyString "active" ]}))),
       w')
    ∧ HasError (resp_Diagnostics noResponse) = false
    ∧ length (calls w') = 4%nat.
Proof.
  intros env w1.
  apply (create_succeeds parseDuration 1 2 env theResource
           (gpuRequest noTimeouts) noResponse (start 0) "i-1"
           (60 * Minute) noResponse w1 {[ "status" := AnyString "active" ]}).
  - vm_compute. reflexivity.
  - intros [|i] Hi; [reflexivity|lia].
  - reflexivity.
  - reflexivity.
  - vm_compute. reflexivity.
  - lia.
Defined.

(** X16. The create timeout is parsed only after the instance was
    created. When the text of [timeouts.create] does not parse, [Create]
    has made the create request by then; it reports that the timeout
    cannot be parsed, fetches no status and sets no state. *)
Theorem unparsable_timeout_after_create
    P fuel env r ctx req resp w result id s err :
  let plan := create_Plan req in
  let body := createRequestBody plan in
  HasError (resp_Diagnostics
              (appendDiags (appendDiags resp (create_PlanGet req)) body.2))
  = false ->
  answer (reply (remote env (length (calls w)))) true = (result, None) ->
  as_string (result !! "id") = (id, true) ->
  timeouts.create (Timeouts plan) = Some (StringValue s) ->
  P s = inr err ->
  ∃ resp' w',
    Create P fuel env r ctx req resp w = (Some (Returns resp'), w')
    ∧ calls w' = mkCall (now w) "POST" instanceCreateRoute (Some body.1)
                 :: calls w
    ∧ resp_State resp' = resp_State resp
    ∧ mkDiagnostic SeverityError "Timeout Cannot Be Parsed"
        ("timeout for " +:+ timeouts.quote +:+ "create" +:+ timeouts.quote
         +:+ " cannot be parsed, " +:+ Error err)
      ∈ resp_Diagnostics resp'.
Proof.
  cbv zeta. intros Hok Hans Hid Ht HP.
  assert (Hok1 : HasError (resp_Diagnostics
                   (appendDiags resp (create_PlanGet req))) = false).
  { cbn [appendDiags resp_Diagnostics] in Hok |- *.
    rewrite HasError_Append in Hok. by apply orb_false_elim in Hok as [? _]. }
  unfold Create, provision. rewrite Hok1.
  destruct (createRequestBody (create_Plan req)) as [body diags].
  cbn [fst snd] in *. rewrite Hok.
  unfold CreateInstance, makeRequest. rewrite Hans, Hid. cbn [negb].
  unfold timeouts.Create. rewrite Ht. cbn [IsNull IsUnknown orb ValueString].
  rewrite HP.
  set (d := mkDiagnostic SeverityError "Timeout Cannot Be Parsed" _).
  assert (Hin : d ∈ Append (resp_Diagnostics
                  (appendDiags (appendDiags resp (create_PlanGet req)) diags))
                  [d]).
  { apply elem_of_Append. right. by apply list_elem_of_singleton. }
  assert (Herr : HasError (Append (resp_Diagnostics
                    (appendDiags (appendDiags resp (create_PlanGet req)) diags))
                    [d]) = true).
  { apply HasError_true. by exists d. }
  cbn [appendDiags resp_Diagnostics] in Herr |- *. rewrite Herr.
  eexists _, _. split; [reflexivity|]. cbn [calls resp_State resp_Diagnostics].
  done.
Qed.

Lemma unparsable_timeout_after_create_witness :
  let soon := timeouts.mkValue (Some (StringValue "soon")) in
  let env := mkEnv (behindCreate (statuses [] "active")) (always CaseTick) in
  ∃ resp' w',
    Create parseDuration 5 env theResource Background (gpuRequest soon)
           noResponse (start 0)
    = (Some (Returns resp'), w')
    ∧ calls w' = [mkCall 0 "POST" instanceCreateRoute
                         (Some (createRequestBody (gpuPlan "gpu" soon)).1)]
    ∧ resp_State resp' = None
    ∧ mkDiagnostic SeverityError "Timeout Cannot Be Parsed"
        ("timeout for " +:+ timeouts.quote +:+ "create" +:+ timeouts.quote
         +:+ " cannot be parsed, "
         +:+ Error (libError "time: invalid duration"))
      ∈ resp_Diagnostics resp'.
Proof.
  intros soon env.
  apply (unparsable_timeout_after_create parseDuration 5 env theResource
           Background (gpuRequest soon) noResponse (start 0)
           {[ "id" := AnyString "i-1" ]} "i-1" "soon"
           (libError "time: invalid duration")); reflexivity.
Defined.

Lemma omap_strings (l : list string) :
  omap (λ v, match v with
             | AnyString vStr => Some (StringValue vStr)
             | _ => None
             end) (AnyString <$> l)
  = StringValue <$> l.
Proof. induction l as [|x l IH]; [done|]. cbn. by rewrite IH. Qed.

(** X17. Volume ids survive the way from an API response into the state
    and from there into a create body: for an array of strings in the
    response, the list the handlers store turns, by [ElementsAs], into the
    same strings in the same order, without a diagnostic. An empty array
    is stored as null, never as an empty list. *)
Theorem volume_ids_round_trip (ids : list string) :
  ElementsAs (Elements (volumeIdsOf (Some (AnySlice (AnyString <$> ids)))))
  = (ids, [])
  ∧ (ids = [] -> volumeIdsOf (Some (AnySlice (AnyString <$> ids))) = ListNull)
  ∧ (ids ≠ [] -> volumeIdsOf (Some (AnySlice (AnyString <$> ids)))
                 = ListValue (StringValue <$> ids)).
Proof.
  unfold volumeIdsOf. rewrite omap_strings.
  destruct ids as [|x ids]; [done|]. split; [|done].
  cbn [fmap list_fmap Elements]. unfold ElementsAs.
  assert (Hall : forallb (λ e, match e with StringValue _ => true | _ => false end)
                   (StringValue x :: (StringValue <$> ids)) = true).
  { apply forallb_forall. intros e [<-|Hin]; [done|].
    apply list_elem_of_In, list_elem_of_fmap in Hin as (y & -> & _). done. }
  change (list_fmap string StringT StringValue ids) with (StringValue <$> ids).
  rewrite Hall. f_equal. cbn [map ValueString]. f_equal.
  induction ids as [|y ids IH]; [done|]. cbn. by rewrite IH.
Qed.

End CreateFacts.

(** ** Read, delete and update of an instance *)

Module HandlerFacts.

Import context time provider_shadeform instance tfsdk Spec Scenarios.
Import instance_rest Diags.

Lemma stringOrKeep_twice x old :
  stringOrKeep x (stringOrKeep x old) = stringOrKeep x old.
Proof. unfold stringOrKeep. by destruct (as_string x) as [v []]. Qed.

Lemma boolOrKeep_twice x old :
  boolOrKeep x (boolOrKeep x old) = boolOrKeep x old.
Proof. unfold boolOrKeep. by destruct (as_bool x) as [v []]. Qed.

(** X10. When the state decodes, [Read] calls the client once, for the
    info of the state's id, and that call sends one GET request, or none
    when [http.NewRequest] fails. If the call fails, [Read] reports an
    error and leaves the state as it was: an instance the API no longer
    knows stays in the state. If it succeeds the state is refreshed, with
    the id and the timeouts it had and without an [ssh_port]. *)
Theorem read_refreshes_or_reports env r ctx req resp w :
  HasError (resp_Diagnostics (appendDiags resp (read_StateGet req))) = false ->
  let state := read_State req in
  let x := remote env (length (calls w)) in
  let get := mkCall (now w) "GET" (instanceInfoRoute (ValueString (Id state)))
                    None in
  let '(resp', w') := Read env r ctx req resp w in
  calls w' = get :: calls w
  ∧ requests env (calls w')
    = (if sends (reply x) then [get] else []) ++ requests env (calls w)
  ∧ match answer (reply x) true with
    | (_, Some e) =>
        HasError (resp_Diagnostics resp') = true
        ∧ resp_State resp' = resp_State resp
    | (result, None) =>
        sends (reply x) = true
        ∧ HasError (resp_Diagnostics resp') = false
        ∧ resp_State resp' = Some (refreshedModel state result)
        ∧ Id (refreshedModel state result) = Id state
        ∧ Timeouts (refreshedModel state result) = Timeouts state
        ∧ SshPort (refreshedModel state result) = Int64Null
    end.
Proof.
  intros Hok. cbv zeta. unfold Read. rewrite Hok.
  unfold GetInstance, makeRequest.
  destruct (answer _ true) as [result [e|]] eqn:Hans; (split; [done|]);
    cbn [calls requests];
    (split; [by destruct (sends (reply (remote env (length (calls w)))))|]).
  - cbn [addError resp_Diagnostics resp_State appendDiags].
    by rewrite HasError_AddError.
  - cbn [setState resp_Diagnostics resp_State]. split; [|done].
    unfold answer in Hans. by destruct (reply (remote env (length (calls w)))).
Qed.

Lemma read_refreshes_or_reports_witness :
  let env := mkEnv (λ _, mkExchange 3 (NewRequestFails
                                         (libError "invalid URL escape")))
                   (always CaseTick) in
  let '(resp', w') :=
    Read env theResource Background (mkReadRequest (gpuState "gpu") [])
         noResponse (start 0) in
  calls w' = [mkCall 0 "GET" (instanceInfoRoute "i-1") None]
  ∧ requests env (calls w') = []
  ∧ HasError (resp_Diagnostics resp') = true
  ∧ resp_State resp' = None.
Proof.
  exact (read_refreshes_or_reports
           (mkEnv (λ _, mkExchange 3 (NewRequestFails
                                        (libError "invalid URL escape")))
                  (always CaseTick))
           theResource Background (mkReadRequest (gpuState "gpu") [])
           noResponse (start 0) eq_refl).
Defined.

(** X11. Refreshing is idempotent: a second [Read], of the state the first
    one set and against the same API answer, sets that very state again
    and adds no diagnostic. *)
Theorem read_twice env r ctx state resp w info :
  HasError (resp_Diagnostics resp) = false ->
  answer (reply (remote env (length (calls w)))) true = (info, None) ->
  answer (reply (remote env (S (length (calls w))))) true = (info, None) ->
  let '(resp1, w1) :=
    Read env r ctx (mkReadRequest state []) resp w in
  ∃ state1,
    resp_State resp1 = Some state1
    ∧ (Read env r ctx (mkReadRequest state1 []) resp1 w1).1 = resp1.
Proof.
  intros Hok H1 H2. unfold Read, appendDiags, setState, Append.
  cbn [read_State read_StateGet fold_left resp_Diagnostics resp_State].
  rewrite Hok. unfold GetInstance, makeRequest. rewrite H1.
  eexists. split; [done|].
  cbn [fold_left resp_Diagnostics resp_State calls length].
  rewrite Hok, H2. cbn [fst]. f_equal. f_equal.
  unfold refreshedModel.
  cbn [Id Cloud Region ShadeInstanceType ShadeCloud Name Timeouts].
  by rewrite !stringOrKeep_twice, boolOrKeep_twice.
Qed.

Lemma read_twice_witness :
  let env := mkEnv (statuses [] "active") (always CaseTick) in
  let '(resp1, w1) :=
    Read env theResource Background (mkReadRequest (gpuState "old") [])
         noResponse (start 0) in
  ∃ state1,
    resp_State resp1 = Some state1
    ∧ (Read env theResource Background (mkReadRequest state1 []) resp1 w1).1
      = resp1.
Proof.
  exact (read_twice (mkEnv (statuses [] "active") (always CaseTick))
           theResource Background (gpuState "old") noResponse (start 0)
           {[ "status" := AnyString "active" ]} eq_refl eq_refl eq_refl).
Defined.

(** X12. When the state decodes, [Delete] calls the client once, for the
    delete of the state's id, and that call sends one POST request without
    a body, or none when [http.NewRequest] fails. [Delete] reports an error
    unless a request went out and its reply has status 200, whatever the
    body of the reply; it never sets the state. *)
Theorem delete_asks_once env r ctx req resp w :
  HasError (resp_Diagnostics (appendDiags resp (delete_StateGet req)))
  = false ->
  let state := delete_State req in
  let x := remote env (length (calls w)) in
  let post := mkCall (now w) "POST"
                     (instanceDeleteRoute (ValueString (Id state))) None in
  let '(resp', w') := Delete env r ctx req resp w in
  calls w' = post :: calls w
  ∧ requests env (calls w')
    = (if sends (reply x) then [post] else []) ++ requests env (calls w)
  ∧ resp_State resp' = resp_State resp
  ∧ (HasError (resp_Diagnostics resp') = false
     ↔ ∃ text decoded, reply x = Replied StatusOK text decoded).
Proof.
  intros Hok. cbv zeta. unfold Delete. rewrite Hok.
  unfold DeleteInstance, makeRequestNoResponse, makeRequest, answer.
  destruct (reply (remote env (length (calls w))))
    as [e|e|e|code text decoded] eqn:Hr.
  1-3: split; [done|]; cbn [calls requests]; rewrite Hr;
       split; [done|]; split; [done|];
       cbn [addError resp_Diagnostics]; rewrite HasError_AddError;
       split; [done|]; by intros (? & ? & ?).
  destruct (Z.eqb_spec code StatusOK) as [->|Hne]; cbn [negb];
    (split; [done|]); cbn [calls requests]; rewrite Hr;
    (split; [done|]); (split; [done|]).
  - rewrite Hok. split; [|done]. intros _. by eexists _, _.
  - cbn [addError resp_Diagnostics]. rewrite HasError_AddError.
    split; [done|]. by intros (? & ? & [= -> _ _]).
Qed.

Lemma delete_asks_once_witness :
  let env := mkEnv (λ _, mkExchange 0
                          (Replied 200 "deleted"
                             (inl (libError "invalid character 'd'"))))
                   (always CaseTick) in
  let '(resp', w') :=
    Delete env theResource Background (mkDeleteRequest (gpuState "gpu") [])
           noResponse (start 0) in
  calls w' = [mkCall 0 "POST" (instanceDeleteRoute "i-1") None]
  ∧ requests env (calls w')
    = [mkCall 0 "POST" (instanceDeleteRoute "i-1") None]
  ∧ resp_State resp' = None
  ∧ (HasError (resp_Diagnostics resp') = false
     ↔ ∃ text decoded,
         Replied 200 "deleted" (inl (libError "invalid character 'd'"))
         = Replied StatusOK text decoded).
Proof.
  exact (delete_asks_once
           (mkEnv (λ _, mkExchange 0
                          (Replied 200 "deleted"
                             (inl (libError "invalid character 'd'"))))
                  (always CaseTick))
           theResource Background (mkDeleteRequest (gpuState "gpu") [])
           noResponse (start 0) eq_refl).
Defined.

(** X13. [Update] either reports an error and leaves the state as it was,
    or reports none and sets a state that has the id of the prior state.
    The info is read only after the update request went through: a failed
    update request is the only request made. *)
Theorem update_outcome env r ctx req resp w :
  let state := update_State req in
  let '(resp', w') := Update env r ctx req resp w in
  (if HasError (resp_Diagnostics resp')
   then resp_State resp' = resp_State resp
   else ∃ m, resp_State resp' = Some m
             ∧ Id m = StringValue (ValueString (Id state))
             ∧ length (calls w') = S (S (length (calls w))))
  ∧ ((answer (reply (remote env (length (calls w)))) false).2 ≠ None ->
     (length (calls w') <= S (length (calls w)))%nat).
Proof.
  cbv zeta. unfold Update.
  destruct (HasError (resp_Diagnostics
              (appendDiags (appendDiags resp (update_PlanGet req))
                           (update_StateGet req)))) eqn:Hok.
  { rewrite Hok. split; [done|]. intros _. lia. }
  unfold UpdateInstance, makeRequestNoResponse, makeRequest.
  destruct (answer (reply (remote env (length (calls w)))) false)
    as [m0 [e|]].
  - cbn [addError resp_Diagnostics resp_State appendDiags].
    rewrite HasError_AddError. split; [done|]. intros _. cbn [calls length].
    lia.
  - unfold GetInstance, makeRequest.
    destruct (answer _ true) as [info [e|]].
    + cbn [addError resp_Diagnostics resp_State appendDiags].
      rewrite HasError_AddError. by split.
    + cbn [setState resp_Diagnostics resp_State]. rewrite Hok.
      split; [|done]. by eexists.
Qed.

End HandlerFacts.

(** ** The provider and the volume resource *)

Module ProviderFacts.

Import provider_shadeform provider_shadeform_rest tfsdk instance_rest Diags.
Import Scenarios.

(** X14. With a provider configuration that decodes, validation fails
    exactly for a null or unknown [api_key]; and the provider hands the
    resource a client that the resource's [Configure] accepts without a
    diagnostic, whose key is the configured one, or the value of
    [SHADEFORM_API_KEY] when the configured key is the empty string. The
    data sources get the same client. *)
Theorem provider_hands_over_client Getenv req resp current diags :
  HasError (Append (provider.cfg_Diagnostics resp) (provider.ConfigGet req))
  = false ->
  let key := ValueString (provider.ApiKey (provider.Config req)) in
  let resp' := provider.Configure Getenv req resp in
  Configure current (provider.ResourceData resp') diags
  = (Some (mkClient (if String.eqb key "" then Getenv "SHADEFORM_API_KEY"
                     else key)), diags)
  ∧ provider.DataSourceData resp' = provider.ResourceData resp'
  ∧ (HasError (provider.ValidateConfig req (provider.cfg_Diagnostics resp))
     = true
     ↔ provider.ApiKey (provider.Config req) = StringNull
       ∨ provider.ApiKey (provider.Config req) = StringUnknown).
Proof.
  intros Hok. cbv zeta. unfold provider.Configure, provider.ValidateConfig.
  rewrite Hok. cbn [provider.ResourceData provider.DataSourceData Configure].
  split; [done|]. split; [done|].
  destruct (provider.ApiKey (provider.Config req)) as [| |key];
    cbn [IsNull IsUnknown orb].
  - rewrite HasError_AddError. split; auto.
  - rewrite HasError_AddError. split; auto.
  - rewrite Hok. split; [done|]. by intros [|].
Qed.

Lemma provider_hands_over_client_witness :
  let Getenv := λ _ : string, "key-of-the-environment" in
  let req := provider.mkConfigRequest
               (provider.mkProviderModel (StringValue "")) [] in
  let resp := provider.mkConfigureResponse [] NoData NoData in
  Configure None (provider.ResourceData (provider.Configure Getenv req resp))
            []
  = (Some (mkClient "key-of-the-environment"), [])
  ∧ provider.DataSourceData (provider.Configure Getenv req resp)
    = provider.ResourceData (provider.Configure Getenv req resp)
  ∧ (HasError (provider.ValidateConfig req []) = true
     ↔ StringValue "" = StringNull ∨ StringValue "" = StringUnknown).
Proof.
  exact (provider_hands_over_client (λ _ : string, "key-of-the-environment")
           (provider.mkConfigRequest
              (provider.mkProviderModel (StringValue "")) [])
           (provider.mkConfigureResponse [] NoData NoData) None [] eq_refl).
Defined.

End ProviderFacts.

Module VolumeFacts.

Import context provider_shadeform provider_shadeform_rest tfsdk Diags.
Import Scenarios volume.

Lemma AddError_has diags summary detail :
  mkDiagnostic SeverityError summary detail ∈ AddError diags summary detail.
Proof.
  unfold AddError. apply elem_of_Append. right. by apply list_elem_of_singleton.
Qed.

(** X15. [Delete] of a volume first reads the volume. If the read fails, or
    the info names a non-empty [mounted_by], it reports an error and sends
    no delete request: a mounted volume is never deleted, and the error
    names the volume and the instance that mounts it. Otherwise the
    delete request follows the read. The state is never set. *)
Theorem mounted_volume_is_kept env r ctx req resp w :
  HasError (Append (resp_Diagnostics resp) (delete_StateGet req)) = false ->
  let id := ValueString (Id (delete_State req)) in
  let read := mkCall (now w) "GET" (volumeInfoRoute id) None in
  let '(resp', w') := Delete env r ctx req resp w in
  resp_State resp' = resp_State resp
  ∧ match answer (reply (remote env (length (calls w)))) true with
    | (_, Some e) =>
        calls w' = read :: calls w
        ∧ HasError (resp_Diagnostics resp') = true
    | (volumeInfo, None) =>
        (∀ inst, volumeInfo !! "mounted_by" = Some (AnyString inst) ->
                 inst ≠ "" ->
                 calls w' = read :: calls w
                 ∧ mkDiagnostic SeverityError "Error deleting volume"
                     ("Cannot delete volume " +:+ id
                      +:+ " because it is mounted by instance " +:+ inst
                      +:+ ". Please delete the instance first.")
                   ∈ resp_Diagnostics resp')
        ∧ ((∀ inst, volumeInfo !! "mounted_by" = Some (AnyString inst) ->
                    inst = "") ->
           ∃ t, calls w' = mkCall t "POST" (volumeDeleteRoute id) None
                           :: read :: calls w)
    end.
Proof.
  intros Hok. cbv zeta. unfold Delete. rewrite Hok.
  unfold GetVolume, makeRequest.
  destruct (answer (reply (remote env (length (calls w)))) true)
    as [volumeInfo [e|]].
  { split; [done|]. split; [done|]. cbn [resp_Diagnostics].
    apply HasError_AddError. }
  unfold mountedBy.
  destruct (volumeInfo !! "mounted_by") as [[| | |inst| |]|] eqn:Hm.
  4: destruct (String.eqb_spec inst "") as [->|Hne]; cbn [negb].
  5: { split; [done|]. split.
       - intros inst' [= <-] _. split; [done|]. cbn [resp_Diagnostics].
         apply AddError_has.
       - intros Hempty. by destruct (Hne (Hempty inst eq_refl)). }
  all: unfold DeleteVolume, makeRequestNoResponse, makeRequest;
    destruct (answer _ false) as [m [e|]]; (split; [done|]);
    (split; [|intros _; by eexists]); intros inst' Heq Hne'; by simplify_eq.
Qed.

Lemma mounted_volume_is_kept_witness :
  let env := mkEnv (λ _, object 0 "mounted_by" "i-1") (always CaseTick) in
  let state := mkVolumeModel (StringValue "v-1") (StringValue "datacrunch")
                 (StringValue "helsinki-finland-2")
                 (StringValue "terraform-test-volume") (Int64Value 101)
                 (BoolValue false) (BoolValue false) StringNull
                 (StringValue "i-1") in
  let '(resp', w') :=
    Delete env (mkVolumeResource theClient) Background
           (mkDeleteRequest state []) (mkResponse [] None) (start 0) in
  resp_State resp' = None
  ∧ (∀ inst, ({[ "mounted_by" := AnyString "i-1" ]} : gmap string any)
             !! "mounted_by" = Some (AnyString inst) ->
             inst ≠ "" ->
             calls w' = [mkCall 0 "GET" (volumeInfoRoute "v-1") None]
             ∧ mkDiagnostic SeverityError "Error deleting volume"
                 ("Cannot delete volume " +:+ "v-1"
                  +:+ " because it is mounted by instance " +:+ inst
                  +:+ ". Please delete the instance first.")
               ∈ resp_Diagnostics resp')
    ∧ ((∀ inst, ({[ "mounted_by" := AnyString "i-1" ]} : gmap string any)
                !! "mounted_by" = Some (AnyString inst) ->
                inst = "") ->
       ∃ t, calls w' = [mkCall t "POST" (volumeDeleteRoute "v-1") None;
                        mkCall 0 "GET" (volumeInfoRoute "v-1") None]).
Proof.
  exact (mounted_volume_is_kept
           (mkEnv (λ _, object 0 "mounted_by" "i-1") (always CaseTick))
           (mkVolumeResource theClient) Background
           (mkDeleteRequest
              (mkVolumeModel (StringValue "v-1") (StringValue "datacrunch")
                 (StringValue "helsinki-finland-2")
                 (StringValue "terraform-test-volume") (Int64Value 101)
                 (BoolValue false) (BoolValue false) StringNull
                 (StringValue "i-1")) [])
           (mkResponse [] None) (start 0) eq_refl).
Defined.

End VolumeFacts.
